(** * kontent-data-manager: the import engine

    A shallow embedding of [src/lib/core/id-translate-helper.ts],
    [src/lib/core/global-helper.ts] and [src/lib/import/import.service.ts],
    and the properties of the import engine proved over it.

    Conventions.
    - A JavaScript string is a [string]: a sequence of code units below 256.
      On such strings the only line terminators are LF and CR.
    - An optional field [f?: string] is an [option string]; [undefined] is [None].
    - The management client is an external collaborator.  Every request is
      recorded in a trace, and the answer to a request is given by a [Client]:
      a family of functions of the trace of the requests issued so far.
    - Arrays that the service mutates in place ([importedItems],
      [preparedItems], ...) live in the state of the [M] monad, so that what
      was pushed before an exception is still there in the handler. *)

From Stdlib Require Import List String Ascii Bool ZArith Arith Lia.
Import ListNotations.

Open Scope string_scope.
Open Scope list_scope.

Infix "+++" := String.append (at level 60, right associativity).

(** ** JavaScript strings *)

Module Js.

Definition dquote : ascii := "034"%char.

(** [`${attr}="${value}"`] *)
Definition attrEq (attr value : string) : string :=
  attr +++ String "=" (String dquote (value +++ String dquote "")).

(** Truthiness of a string: only the empty string is falsy. *)
Definition truthyStr (s : string) : bool :=
  match s with "" => false | _ => true end.

(** Truthiness of a [string | undefined]. *)
Definition truthy (o : option string) : bool :=
  match o with Some s => truthyStr s | None => false end.

Definition startsWith (p s : string) : bool := String.prefix p s.

Definition endsWith (p s : string) : bool :=
  Nat.leb (String.length p) (String.length s)
  && String.eqb (String.substring (String.length s - String.length p) (String.length p) s) p.

(** [toLowerCase] on code units below 256: A-Z, and the upper-case letters
    of Latin-1 (0xC0-0xDE but for the multiplication sign 0xD7). *)
Definition lowerChar (c : ascii) : ascii :=
  let n := nat_of_ascii c in
  if (Nat.leb 65 n && Nat.leb n 90) || (Nat.leb 192 n && Nat.leb n 222 && negb (Nat.eqb n 215))
  then ascii_of_nat (n + 32) else c.

Fixpoint toLowerCase (s : string) : string :=
  match s with
  | "" => ""
  | String c s' => String (lowerChar c) (toLowerCase s')
  end.

(** [a === b] on [string | undefined]. *)
Definition optEqb (a b : option string) : bool :=
  match a, b with
  | Some x, Some y => String.eqb x y
  | None, None => true
  | _, _ => false
  end.

(** *** [String.prototype.replace] with one of the patterns
        [/ATTR="(.*?)"/g] and a replacer function *)

(** The regular expression's dot matches anything but a line terminator. *)
Definition isLineTerminator (c : ascii) : bool :=
  Ascii.eqb c "010"%char || Ascii.eqb c "013"%char.

(** The lazy group followed by the closing quote: the shortest run of
    characters that are not line terminators, up to the next double quote.
    Gives the captured group and what follows the closing quote. *)
Fixpoint lazyUntilQuote (s : string) : option (string * string) :=
  match s with
  | "" => None
  | String c s' =>
      if Ascii.eqb c dquote then Some ("", s')
      else if isLineTerminator c then None
      else match lazyUntilQuote s' with
           | Some (b, rest) => Some (String c b, rest)
           | None => None
           end
  end.

Fixpoint dropPrefix (p s : string) : option string :=
  match p, s with
  | "", _ => Some s
  | String a p', String b s' => if Ascii.eqb a b then dropPrefix p' s' else None
  | String _ _, "" => None
  end.

(** A match of [/ATTR="(.*?)"/] anchored at the start of [s]. *)
Definition matchAt (attr s : string) : option (string * string) :=
  match dropPrefix (attr +++ String "=" (String dquote "")) s with
  | Some s1 => lazyUntilQuote s1
  | None => None
  end.

(** The global replace: matches are looked for from left to right; a match
    is replaced by the replacer's result on the whole match and the group,
    and the search goes on after the match; a character where no match
    starts is copied.  A match is never empty, so [fuel] the length of the
    text is enough ([replaceRegex_nomatch], [replaceRegex_match]). *)
Fixpoint replaceFuel (fuel : nat) (attr : string) (replacer : string -> string -> string)
         (s : string) : string :=
  match fuel with
  | O => s
  | S fuel' =>
      match s with
      | "" => ""
      | String c s' =>
          match matchAt attr s with
          | Some (b, rest) => replacer (attrEq attr b) b +++ replaceFuel fuel' attr replacer rest
          | None => String c (replaceFuel fuel' attr replacer s')
          end
      end
  end.

Definition replaceRegex (attr : string) (replacer : string -> string -> string) (s : string) : string :=
  replaceFuel (String.length s) attr replacer s.

(** The pieces the global replace cuts a text into. *)
Inductive Piece : Type :=
| Copied (c : ascii)
| Marker (b : string).

Fixpoint piecesFuel (fuel : nat) (attr s : string) : list Piece :=
  match fuel with
  | O => []
  | S fuel' =>
      match s with
      | "" => []
      | String c s' =>
          match matchAt attr s with
          | Some (b, rest) => Marker b :: piecesFuel fuel' attr rest
          | None => Copied c :: piecesFuel fuel' attr s'
          end
      end
  end.

Definition pieces (attr s : string) : list Piece := piecesFuel (String.length s) attr s.

(** The source text of a piece, and what the replace puts in its place. *)
Definition source (attr : string) (p : Piece) : string :=
  match p with
  | Copied c => String c ""
  | Marker b => attrEq attr b
  end.

Definition replaced (attr : string) (replacer : string -> string -> string) (p : Piece) : string :=
  match p with
  | Copied c => String c ""
  | Marker b => replacer (attrEq attr b) b
  end.

Fixpoint concatStr (l : list string) : string :=
  match l with
  | [] => ""
  | s :: l' => s +++ concatStr l'
  end.

End Js.

(** ** Values of unknown shape ([any]) *)

(** A value as a parsed file gives it: a tree without sharing.  An object
    is the list of its own properties in the order of [Object.keys]; a
    property name occurs once. *)
#[warnings="-register-all"]
Inductive JsValue : Type :=
| JUndefined
| JNull
| JBool (b : bool)
| JNum (n : Z)
| JStr (s : string)
| JArr (elements : list JsValue)
| JObj (properties : list (string * JsValue)).

Module Obj.

(** [o[key]]: [undefined] when [o] has no such property. *)
Fixpoint get (key : string) (o : list (string * JsValue)) : JsValue :=
  match o with
  | [] => JUndefined
  | (k, v) :: o' => if String.eqb k key then v else get key o'
  end.

(** [o[key] = v]: an existing property keeps its place, a new one comes last. *)
Fixpoint set (key : string) (v : JsValue) (o : list (string * JsValue)) : list (string * JsValue) :=
  match o with
  | [] => [(key, v)]
  | (k, w) :: o' => if String.eqb k key then (k, v) :: o' else (k, w) :: set key v o'
  end.

Definition keys (o : list (string * JsValue)) : list string := map fst o.

End Obj.

(** [if (data)] *)
Definition jsTruthy (v : JsValue) : bool :=
  match v with
  | JUndefined | JNull => false
  | JBool b => b
  | JNum n => negb (Z.eqb n 0)
  | JStr s => Js.truthyStr s
  | JArr _ | JObj _ => true
  end.

(** [typeof val === 'object' && val !== null] *)
Definition isObject (v : JsValue) : bool :=
  match v with
  | JArr _ | JObj _ => true
  | _ => false
  end.

(** ** Models of the management SDK and of the import source

    The declarations are not part of the sources at hand
    ([@kontent-ai/management-sdk], [import.models], [core.models]); the
    records have the fields the service reads and writes. *)

(** [SharedModels.ReferenceObject] *)
Record ReferenceObject : Type := mkReference {
  ref_id : option string;
  ref_codename : option string }.

Record WorkflowStep : Type := mkStep {
  step_id : string;
  step_codename : string }.

(** [WorkflowModels.Workflow] *)
Record Workflow : Type := mkWorkflow {
  wf_codename : string;
  wf_steps : list WorkflowStep;
  wf_publishedStep : WorkflowStep;
  wf_archivedStep : WorkflowStep }.

(** [CollectionModels.Collection] *)
Record Collection : Type := mkCollection {
  col_id : string;
  col_codename : string }.

(** [ContentItemModels.ContentItem] *)
Record ContentItem : Type := mkContentItem {
  ci_id : string;
  ci_name : string;
  ci_codename : string;
  ci_collection : ReferenceObject }.

(** [LanguageVariantModels.ContentItemLanguageVariant] *)
Record LanguageVariant : Type := mkVariant {
  lv_item : ReferenceObject;
  lv_language : ReferenceObject;
  lv_workflowStep : ReferenceObject }.

(** The [data] of an asset response and of an uploaded binary file. *)
Record Asset : Type := mkAsset {
  asset_id : string;
  asset_externalId : option string }.

Record BinaryFile : Type := mkBinaryFile {
  file_id : string }.

(** [IImportAsset] *)
Record ImportAsset : Type := mkImportAsset {
  assetId : string;
  filename : string;
  mimeType : option string;
  binaryData : string }.

(** [IParsedElement] *)
Record ParsedElement : Type := mkElement {
  el_codename : string;
  el_type : string;
  el_value : JsValue }.

(** [IParsedContentItem] *)
Record ParsedContentItem : Type := mkParsedItem {
  codename : string;
  name : string;
  type : string;
  collection : string;
  language : string;
  workflow_step : option string;
  elements : list ParsedElement }.

(** What the fields [imported] and [original] of a ledger entry hold. *)
Inductive Payload : Type :=
| OfBinaryFile (f : BinaryFile)
| OfAsset (a : Asset)
| OfImportAsset (a : ImportAsset)
| OfContentItem (c : ContentItem)
| OfParsedItem (i : ParsedContentItem)
| OfLanguageVariant (v : LanguageVariant)
| OfUpsertedLanguageVariants.
(** [OfUpsertedLanguageVariants] is the array [upsertedLanguageVariants]
    itself: the entries that hold it share it. *)

(** [IImportItemResult] *)
Record ImportItemResult : Type := mkResult {
  imported : Payload;
  original : Payload;
  importId : option string;
  originalId : option string;
  originalCodename : option string }.

(** ** id-translate-helper.ts *)

Module IdTranslateHelper.

(** [items.find((m) => m.originalId === id)?.importId].  The parameter is
    declared a string, the tree walk passes whatever [data.id] is; see
    [idOf]. *)
Definition tryFindNewId (id : option string) (items : list ImportItemResult) : option string :=
  match find (fun m => Js.optEqb (originalId m) id) items with
  | Some item => importId item
  | None => None
  end.

Definition tryFindNewIdForCodename (codename : string) (items : list ImportItemResult) : option string :=
  match find (fun m => Js.optEqb (originalCodename m) (Some codename)) items with
  | Some item => importId item
  | None => None
  end.

(** The replacer of [replaceIdWithRegex]. *)
Definition idReplacer (replaceAttr : string) (items : list ImportItemResult) (a b : string) : string :=
  if Js.truthyStr b then
    let newId := tryFindNewId (Some b) items in
    match newId with
    | Some new => if Js.truthyStr new then Js.attrEq replaceAttr new else a
    | None => a
    end
  else a.

(** The replacer of [replaceCodenameWithRegex]. *)
Definition codenameReplacer (replaceAttr : string) (items : list ImportItemResult) (a b : string) : string :=
  if Js.truthyStr b then
    let newId := tryFindNewIdForCodename b items in
    match newId with
    | Some new => if Js.truthyStr new then Js.attrEq replaceAttr new else Js.attrEq replaceAttr "ahoj"
    | None => Js.attrEq replaceAttr "ahoj"
    end
  else a.

(** The first parameter stands for the pattern [/regexAttr="(.*?)"/g]. *)
Definition replaceIdWithRegex (regexAttr : string) (text : string) (replaceAttr : string)
           (items : list ImportItemResult) : string :=
  Js.replaceRegex regexAttr (idReplacer replaceAttr items) text.

Definition replaceCodenameWithRegex (regexAttr : string) (text : string) (replaceAttr : string)
           (items : list ImportItemResult) : string :=
  Js.replaceRegex regexAttr (codenameReplacer replaceAttr items) text.

Definition replaceIdsInRichText (text : string) (items : list ImportItemResult) : string :=
  let text := replaceCodenameWithRegex "data-codename" text "data-id" items in
  let text := replaceIdWithRegex "data-item-id" text "data-item-id" items in
  let text := replaceIdWithRegex "data-asset-id" text "data-asset-id" items in
  let text := replaceIdWithRegex "data-image-id" text "data-image-id" items in
  let text := replaceIdWithRegex "data-id" text "data-id" items in
  text.

(** [m.originalId === id] for [id] of any type: a string field equals a
    string, a missing field equals [undefined], and nothing else. *)
Definition idOf (v : JsValue) : option (option string) :=
  match v with
  | JStr s => Some (Some s)
  | JUndefined => Some None
  | _ => None
  end.

Definition tryFindNewIdOfValue (id : JsValue) (items : list ImportItemResult) : option string :=
  match idOf id with
  | Some i => tryFindNewId i items
  | None => None
  end.

(** One turn of the loop over [Object.keys(data)]: [data] is the object as
    the turns before left it; [recur] is the recursive call. *)
Definition visitKey (recur : JsValue -> option JsValue) (items : list ImportItemResult)
           (data : list (string * JsValue)) (key : string) : option (list (string * JsValue)) :=
  let val := Obj.get key data in
  let data :=
    match val with
    | JStr s =>
        if Js.startsWith "<" s && Js.endsWith ">" s
        then Obj.set key (JStr (replaceIdsInRichText s items)) data
        else data
    | _ => data
    end in
  let data :=
    if String.eqb (Js.toLowerCase key) "id" then
      let id := Obj.get "id" data in
      let newId := tryFindNewIdOfValue id items in
      match newId with
      | Some new => if Js.truthyStr new then Obj.set "id" (JStr new) data else data
      | None => data
      end
    else data in
  if isObject val then
    (* [val] is mutated in place, and it still is [data[key]]: no turn
       replaces a property that holds an object *)
    match recur val with
    | Some val' => Some (Obj.set key val' data)
    | None => None
    end
  else Some data.

Fixpoint mapOpt {A B : Type} (f : A -> option B) (l : list A) : option (list B) :=
  match l with
  | [] => Some []
  | x :: l' =>
      match f x with
      | Some y => match mapOpt f l' with Some l'' => Some (y :: l'') | None => None end
      | None => None
      end
  end.

Definition foldOpt {A B : Type} (f : A -> B -> option A) (l : list B) (a : A) : option A :=
  fold_left (fun acc x => match acc with Some a => f a x | None => None end) l (Some a).

(** The function mutates [data] and returns nothing: the model returns
    [data] as the call leaves it, or [None] when [fuel] is not above the
    depth of the tree.  A primitive has no own property that the loop over
    its keys would touch (a string has its characters, and no one-character
    string both starts with [<] and ends with [>]). *)
Fixpoint replaceIdReferencesWithNewId (fuel : nat) (data : JsValue) (items : list ImportItemResult)
  : option JsValue :=
  match fuel with
  | O => None
  | S fuel' =>
      if jsTruthy data then
        match data with
        | JArr elements =>
            option_map JArr (mapOpt (fun arrayItem => replaceIdReferencesWithNewId fuel' arrayItem items) elements)
        | JObj properties =>
            option_map JObj
              (foldOpt (visitKey (fun val => replaceIdReferencesWithNewId fuel' val items) items)
                       (Obj.keys properties) properties)
        | _ => Some data
        end
      else Some data
  end.

Fixpoint depth (v : JsValue) : nat :=
  match v with
  | JArr elements => S (fold_right (fun x d => Nat.max (depth x) d) 0 elements)
  | JObj properties => S (fold_right (fun kv d => Nat.max (depth (snd kv)) d) 0 properties)
  | _ => 0
  end.

End IdTranslateHelper.

(** ** Exceptions, requests and the state of a run *)

(** What the code throws and catches.  [status] is
    [originalError?.response?.status]; [ErrorReport] is the object that
    [handleError] builds. *)
Inductive Thrown : Type :=
| KontentError (message : string) (errorCode : Z) (requestId : string)
               (validationErrors : list string) (status : option Z)
| Error (message : string)
| TypeError (message : string)
| ErrorReport (Message : string) (ErrorCode : Z) (RequestId : string) (ValidationErrors : string).

(** [error instanceof ContentManagementBaseKontentError] with
    [error.originalError?.response?.status === 404] *)
Definition isNotFound (error : Thrown) : bool :=
  match error with
  | KontentError _ _ _ _ (Some status) => Z.eqb status 404
  | _ => false
  end.

(** The requests sent through the management client. *)
Inductive Request : Type :=
| ProjectInformation
| ViewAssetByExternalId (externalId : string)
| UploadBinaryFile (binaryData contentType filename : string)
| AddAsset (fileReferenceId externalId : string)
| ListWorkflows
| ListCollections
| ViewContentItem (itemCodename : string)
| AddContentItem (name type codename collection : string)
| UpsertContentItem (itemCodename name collection : string)
| ViewLanguageVariant (itemCodename languageCodename : string)
| UpsertLanguageVariant (itemCodename languageCodename : string) (elements : list JsValue)
| PublishLanguageVariant (itemCodename languageCodename : string)
| ChangeWorkflowOfLanguageVariant (itemCodename languageCodename stepCodename workflowCodename : string)
| ChangeWorkflowStepOfLanguageVariant (itemCodename languageCodename stepCodename : string)
| CreateNewVersionOfLanguageVariant (itemCodename languageCodename : string).

(** The target project as the service sees it: the answer to a request,
    given the trace of all requests so far, the one answered last. *)
Record Client : Type := mkClient {
  projectInformation : list Request -> Thrown + (string * string);
  viewAsset : list Request -> Thrown + Asset;
  uploadBinaryFile : list Request -> Thrown + BinaryFile;
  addAsset : list Request -> Thrown + Asset;
  listWorkflows : list Request -> Thrown + list Workflow;
  listCollections : list Request -> Thrown + list Collection;
  viewContentItem : list Request -> Thrown + ContentItem;
  addContentItem : list Request -> Thrown + ContentItem;
  upsertContentItem : list Request -> Thrown + ContentItem;
  viewLanguageVariant : list Request -> Thrown + LanguageVariant;
  upsertLanguageVariant : list Request -> Thrown + LanguageVariant;
  publishLanguageVariant : list Request -> Thrown + unit;
  changeWorkflowOfLanguageVariant : list Request -> Thrown + unit;
  changeWorkflowStepOfLanguageVariant : list Request -> Thrown + unit;
  createNewVersionOfLanguageVariant : list Request -> Thrown + unit }.

Module ActionType.
Inductive t : Type :=
| upload | create | fetch | skipUpdate | upsert | publish | archive
| changeWorkflowStep | createNewVersion | unArchive.
End ActionType.

Module ItemType.
Inductive t : Type :=
| binaryFile | asset | contentItem | languageVariant.
End ItemType.

(** The [errorMessage] of the two catch blocks: [error.message], or the
    thrown value when it is no error object. *)
Inductive ErrorMessage : Type :=
| Message (text : string)
| Value (error : Thrown).

(** Lines of the console; colours are left out. *)
Inductive LogLine : Type :=
| Log (text : string)
| Warn (text : string)
| LogRemoved (count : nat) (what : string)
| LogProcessed (title : string) (itemType : ItemType.t) (actionType : ActionType.t)
| LogFailedItem (codename : string) (errorMessage : ErrorMessage)
| LogFailedVariant (codename language : string) (errorMessage : ErrorMessage)
| LogThrown (error : Thrown).

(** The trace of requests, the console, and the arrays the service
    creates and pushes to: [importedItems] of [importAsync],
    [importedAssets] (the [importedItems] local to [importAssetsAsync]),
    [preparedItems] and [upsertedLanguageVariants] of
    [importContentItemsAsync]. *)
Record World : Type := mkWorld {
  requests : list Request;
  console : list LogLine;
  importedItems : list ImportItemResult;
  importedAssets : list ImportItemResult;
  preparedItems : list ContentItem;
  upsertedLanguageVariants : list LanguageVariant }.

Definition newWorld : World := mkWorld [] [] [] [] [] [].

Definition withRequests (w : World) (x : list Request) : World :=
  mkWorld x (console w) (importedItems w) (importedAssets w) (preparedItems w) (upsertedLanguageVariants w).
Definition withConsole (w : World) (x : list LogLine) : World :=
  mkWorld (requests w) x (importedItems w) (importedAssets w) (preparedItems w) (upsertedLanguageVariants w).
Definition withImportedItems (w : World) (x : list ImportItemResult) : World :=
  mkWorld (requests w) (console w) x (importedAssets w) (preparedItems w) (upsertedLanguageVariants w).
Definition withImportedAssets (w : World) (x : list ImportItemResult) : World :=
  mkWorld (requests w) (console w) (importedItems w) x (preparedItems w) (upsertedLanguageVariants w).
Definition withPreparedItems (w : World) (x : list ContentItem) : World :=
  mkWorld (requests w) (console w) (importedItems w) (importedAssets w) x (upsertedLanguageVariants w).
Definition withUpsertedLanguageVariants (w : World) (x : list LanguageVariant) : World :=
  mkWorld (requests w) (console w) (importedItems w) (importedAssets w) (preparedItems w) x.

(** A computation: it ends with a value or with a thrown value, and in
    both cases leaves a world. *)
Definition M (A : Type) : Type := World -> (Thrown + A) * World.

Definition ret {A : Type} (a : A) : M A := fun w => (inr a, w).

Definition bind {A B : Type} (m : M A) (k : A -> M B) : M B :=
  fun w => match m w with
           | (inr a, w') => k a w'
           | (inl e, w') => (inl e, w')
           end.

Definition throw {A : Type} (e : Thrown) : M A := fun w => (inl e, w).

(** [try { m } catch (error) { handler(error) }] *)
Definition tryCatch {A : Type} (m : M A) (handler : Thrown -> M A) : M A :=
  fun w => match m w with
           | (inr a, w') => (inr a, w')
           | (inl e, w') => handler e w'
           end.

Definition get : M World := fun w => (inr w, w).
Definition modify (f : World -> World) : M unit := fun w => (inr tt, f w).

Notation "x <- m ;; k" := (bind m (fun x => k))
  (at level 61, m at next level, right associativity).
Notation "m ;; k" := (bind m (fun _ => k))
  (at level 61, right associativity).

(** [for (const x of l) { body }]; a [continue] is the end of [body]. *)
Fixpoint forEach {A : Type} (l : list A) (body : A -> M unit) : M unit :=
  match l with
  | [] => ret tt
  | x :: l' => body x ;; forEach l' body
  end.

(** [await <request>.toPromise()] *)
Definition send {A : Type} (answer : list Request -> Thrown + A) (r : Request) : M A :=
  fun w => let trace := requests w ++ [r] in (answer trace, withRequests w trace).

Definition consoleLog (line : LogLine) : M unit :=
  modify (fun w => withConsole w (console w ++ [line])).

(** ** global-helper.ts *)

Module GlobalHelper.

Fixpoint join (sep : string) (l : list string) : string :=
  match l with
  | [] => ""
  | [s] => s
  | s :: l' => s +++ sep +++ join sep l'
  end.

(** The value that [handleError] throws; it never returns. *)
Definition errorResult (error : Thrown) : Thrown :=
  match error with
  | KontentError message errorCode requestId validationErrors _ =>
      ErrorReport ("Failed to import data with error: " +++ message) errorCode requestId
                  (join ", " validationErrors)
  | _ => error
  end.

Definition handleError {A : Type} (error : Thrown) : M A :=
  let result := errorResult error in
  throw result.

Definition printProjectInfoToConsoleAsync (client : Client) : M unit :=
  projectInformation <- send (projectInformation client) ProjectInformation ;;
  consoleLog (Log ("Project '" +++ fst projectInformation +++ "'")) ;;
  consoleLog (Log ("Environment '" +++ snd projectInformation +++ "'")).

End GlobalHelper.

(** ** import.service.ts *)

(** [IImportConfig]: the two optional filters of [canImport] and the flag. *)
Record ImportConfig : Type := mkConfig {
  canImportAsset : option (ImportAsset -> bool);
  canImportContentItem : option (ParsedContentItem -> bool);
  skipFailedItems : bool }.

(** [IImportSource]: [metadata] is optional, and so is its
    [csvManagerVersion]. *)
Record ImportSource : Type := mkSource {
  metadata : option (option string);
  assets : list ImportAsset;
  items : list ParsedContentItem }.

(** The argument [data] of [processItem]. *)
Record ProcessData : Type := mkData {
  data_title : string;
  data_originalId : option string;
  data_originalCodename : option string;
  data_importedId : option string;
  data_imported : Payload;
  data_original : Payload }.

(** The array a call of [processItem] pushes to. *)
Inductive Ledger : Type :=
| ImportedItems
| ImportedAssets.

Module ImportService.

(** [version] and [name] of package.json *)
Definition packageVersion : string := "0.0.11".
Definition packageName : string := "xeno-test".

Section Service.

(** [this.client], [this.config], and two imports from [../core] that are
    not among the sources: the codename of the default workflow, and the
    translation of an element's value into a contract, which may throw
    and may give [undefined]. *)
Variable client : Client.
Variable config : ImportConfig.
Variable defaultWorkflowCodename : string.
Variable transformToImportValue :
  JsValue -> string -> string -> list ImportItemResult -> list ParsedContentItem ->
  Thrown + option JsValue.

Definition processItem (ledger : Ledger) (actionType : ActionType.t) (itemType : ItemType.t)
           (data : ProcessData) : M unit :=
  let entry := mkResult (data_imported data) (data_original data) (data_importedId data)
                        (data_originalId data) (data_originalCodename data) in
  modify (fun w => match ledger with
                   | ImportedItems => withImportedItems w (importedItems w ++ [entry])
                   | ImportedAssets => withImportedAssets w (importedAssets w ++ [entry])
                   end) ;;
  match actionType with
  | ActionType.fetch => ret tt
  | _ => consoleLog (LogProcessed (data_title data) itemType actionType)
  end.

Definition removeSkippedItemsFromImport (source : ImportSource) : M ImportSource :=
  let '(assets', removedAssets) :=
    match canImportAsset config with
    | Some canImport =>
        fold_left (fun (acc : list ImportAsset * nat) (asset : ImportAsset) =>
                     if canImport asset then acc
                     else (filter (fun m => negb (String.eqb (assetId m) (assetId asset))) (fst acc),
                           S (snd acc)))
                  (assets source) (assets source, 0)
    | None => (assets source, 0)
    end in
  let '(items', removedContentItems) :=
    match canImportContentItem config with
    | Some canImport =>
        fold_left (fun (acc : list ParsedContentItem * nat) (item : ParsedContentItem) =>
                     if canImport item then acc
                     else (filter (fun m => negb (String.eqb (codename m) (codename item))) (fst acc),
                           S (snd acc)))
                  (items source) (items source, 0)
    | None => (items source, 0)
    end in
  (if Nat.ltb 0 removedAssets then consoleLog (LogRemoved removedAssets "assets") else ret tt) ;;
  (if Nat.ltb 0 removedContentItems then consoleLog (LogRemoved removedContentItems "content items")
   else ret tt) ;;
  ret (mkSource (metadata source) assets' items').

(** The two identical blocks that look the asset up by its external id: a
    response is kept in [existingAsset], a 404 is swallowed and leaves
    [existingAsset] as it was, any other error is thrown again. *)
Definition viewExistingAsset (externalId : string) (existingAsset : option Asset) : M (option Asset) :=
  tryCatch
    (response <- send (viewAsset client) (ViewAssetByExternalId externalId) ;;
     ret (Some response))
    (fun error =>
       let throwError := negb (isNotFound error) in
       if throwError then throw error else ret existingAsset).

(** The body of the loop of [importAssetsAsync]. *)
Definition importAsset (asset : ImportAsset) : M unit :=
  let assetExternalId := assetId asset in
  existingAsset <- viewExistingAsset (assetId asset) None ;;
  existingAsset <- viewExistingAsset assetExternalId existingAsset ;;
  match existingAsset with
  | None =>
      uploadedBinaryFile <-
        send (uploadBinaryFile client)
             (UploadBinaryFile (binaryData asset)
                               (match mimeType asset with Some t => t | None => "" end)
                               (filename asset)) ;;
      processItem ImportedAssets ActionType.upload ItemType.binaryFile
        (mkData (filename asset) None None None (OfBinaryFile uploadedBinaryFile) (OfImportAsset asset)) ;;
      createdAsset <-
        send (addAsset client) (AddAsset (file_id uploadedBinaryFile) assetExternalId) ;;
      processItem ImportedAssets ActionType.create ItemType.asset
        (mkData (filename asset) (Some (assetId asset)) None (Some (asset_id createdAsset))
                (OfAsset createdAsset) (OfImportAsset asset))
  | Some existing =>
      processItem ImportedAssets ActionType.fetch ItemType.asset
        (mkData (filename asset) (Some (assetId asset)) None (Some (asset_id existing))
                (OfAsset existing) (OfImportAsset asset)) ;;
      processItem ImportedAssets ActionType.skipUpdate ItemType.asset
        (mkData (filename asset) (Some (assetId asset)) None (Some (asset_id existing))
                (OfAsset existing) (OfImportAsset asset))
  end.

Definition importAssetsAsync (assets : list ImportAsset) : M (list ImportItemResult) :=
  modify (fun w => withImportedAssets w []) ;;
  forEach assets importAsset ;;
  w <- get ;;
  ret (importedAssets w).

(** [workflows.find(...)] for the default workflow, shared by the two
    functions below. *)
Definition findDefaultWorkflow (workflows : list Workflow) : option Workflow :=
  find (fun m => String.eqb (Js.toLowerCase (wf_codename m)) (Js.toLowerCase defaultWorkflowCodename))
       workflows.

Definition getWorkflowForGivenStepByCodename (itemWorkflowCodename : string)
           (workflows : list Workflow) : Thrown + Workflow :=
  let fix loop (l : list Workflow) : option Workflow :=
    match l with
    | [] => None
    | workflow :: l' =>
        if String.eqb (step_codename (wf_archivedStep workflow)) itemWorkflowCodename then Some workflow
        else if String.eqb (step_codename (wf_publishedStep workflow)) itemWorkflowCodename then Some workflow
        else match find (fun m => String.eqb (step_codename m) itemWorkflowCodename) (wf_steps workflow) with
             | Some step => Some workflow
             | None => loop l'
             end
    end in
  match loop workflows with
  | Some workflow => inr workflow
  | None =>
      match findDefaultWorkflow workflows with
      | None => inl (Error "Missing default workflow")
      | Some defaultWorkflow => inr defaultWorkflow
      end
  end.

Definition getWorkflowForGivenStepById (workflowId : string)
           (workflows : list Workflow) : Thrown + Workflow :=
  let fix loop (l : list Workflow) : option Workflow :=
    match l with
    | [] => None
    | workflow :: l' =>
        if String.eqb (step_id (wf_archivedStep workflow)) workflowId then Some workflow
        else if String.eqb (step_id (wf_publishedStep workflow)) workflowId then Some workflow
        else match find (fun m => String.eqb (step_id m) workflowId) (wf_steps workflow) with
             | Some step => Some workflow
             | None => loop l'
             end
    end in
  match loop workflows with
  | Some workflow => inr workflow
  | None =>
      match findDefaultWorkflow workflows with
      | None => inl (Error "Missing default workflow")
      | Some defaultWorkflow => inr defaultWorkflow
      end
  end.

Fixpoint isLanguageVariantPublished (languageVariant : LanguageVariant)
         (workflows : list Workflow) : bool :=
  match workflows with
  | [] => false
  | workflow :: workflows' =>
      if Js.optEqb (Some (step_id (wf_publishedStep workflow))) (ref_id (lv_workflowStep languageVariant))
      then true
      else isLanguageVariantPublished languageVariant workflows'
  end.

Fixpoint isLanguageVariantArchived (languageVariant : LanguageVariant)
         (workflows : list Workflow) : bool :=
  match workflows with
  | [] => false
  | workflow :: workflows' =>
      if Js.optEqb (Some (step_id (wf_archivedStep workflow))) (ref_id (lv_workflowStep languageVariant))
      then true
      else isLanguageVariantArchived languageVariant workflows'
  end.

Fixpoint doesWorkflowStepCodenameRepresentPublishedStep (workflowStepCodename : string)
         (workflows : list Workflow) : bool :=
  match workflows with
  | [] => false
  | workflow :: workflows' =>
      if String.eqb (step_codename (wf_publishedStep workflow)) workflowStepCodename
      then true
      else doesWorkflowStepCodenameRepresentPublishedStep workflowStepCodename workflows'
  end.

Fixpoint doesWorkflowStepCodenameRepresentArchivedStep (workflowStepCodename : string)
         (workflows : list Workflow) : bool :=
  match workflows with
  | [] => false
  | workflow :: workflows' =>
      if String.eqb (step_codename (wf_archivedStep workflow)) workflowStepCodename
      then true
      else doesWorkflowStepCodenameRepresentArchivedStep workflowStepCodename workflows'
  end.

(** A pure function that may throw, run as a computation. *)
Definition orThrow {A : Type} (r : Thrown + A) : M A :=
  match r with
  | inr a => ret a
  | inl e => throw e
  end.

Definition handleImportError {A : Type} (error : Thrown) : M A :=
  consoleLog (LogThrown error) ;;
  GlobalHelper.handleError error.

Definition getWorkflowsAsync : M (list Workflow) := send (listWorkflows client) ListWorkflows.

Definition getCollectionsAsync : M (list Collection) := send (listCollections client) ListCollections.

Definition shouldUpdateContentItem (importContentItem : ParsedContentItem) (item : ContentItem)
           (collections : list Collection) : Thrown + bool :=
  let importName := name importContentItem in
  let importCollection := collection importContentItem in
  match find (fun m => String.eqb (col_codename m) importCollection) collections with
  | None => inl (Error ("Invalid collection '" +++ importCollection +++ "'"))
  | Some collection =>
      inr (negb (String.eqb importName (ci_name item))
           || negb (String.eqb importCollection (col_codename collection)))
  end.

Definition getElementContract (sourceItems : list ParsedContentItem) (element : ParsedElement)
           (importItems : list ImportItemResult) : Thrown + JsValue :=
  match transformToImportValue (el_value element) (el_codename element) (el_type element)
                               importItems sourceItems with
  | inl e => inl e
  | inr None => inl (Error "Missing import contract for element ")
  | inr (Some importContract) => inr importContract
  end.

(** [elements.map((m) => this.getElementContract(...))]: the first element
    that throws ends the map. *)
Fixpoint elementContracts (sourceItems : list ParsedContentItem) (elements : list ParsedElement)
         (importItems : list ImportItemResult) : Thrown + list JsValue :=
  match elements with
  | [] => inr []
  | m :: elements' =>
      match getElementContract sourceItems m importItems with
      | inl e => inl e
      | inr contract =>
          match elementContracts sourceItems elements' importItems with
          | inl e => inl e
          | inr contracts => inr (contract :: contracts)
          end
      end
  end.

Definition prepareContentItemForImportAsync (importContentItem : ParsedContentItem) : M ContentItem :=
  tryCatch
    (contentItem <- send (viewContentItem client) (ViewContentItem (codename importContentItem)) ;;
     processItem ImportedItems ActionType.fetch ItemType.contentItem
       (mkData (ci_name contentItem) None (Some (ci_codename contentItem)) (Some (ci_id contentItem))
               (OfContentItem contentItem) (OfContentItem contentItem)) ;;
     ret contentItem)
    (fun error =>
       if isNotFound error then
         contentItem <-
           send (addContentItem client)
                (AddContentItem (name importContentItem) (type importContentItem)
                                (codename importContentItem) (collection importContentItem)) ;;
         processItem ImportedItems ActionType.create ItemType.contentItem
           (mkData (ci_name contentItem) None (Some (ci_codename contentItem)) (Some (ci_id contentItem))
                   (OfContentItem contentItem) (OfContentItem contentItem)) ;;
         ret contentItem
       else throw error).

Definition prepareLanguageVariantForImportAsync (importContentItem : ParsedContentItem)
           (workflows : list Workflow) : M unit :=
  languageVariantOfContentItem <-
    tryCatch
      (languageVariantOfContentItem <-
         send (viewLanguageVariant client)
              (ViewLanguageVariant (codename importContentItem) (language importContentItem)) ;;
       processItem ImportedItems ActionType.fetch ItemType.languageVariant
         (mkData (name importContentItem +++ " | " +++ language importContentItem) None None None
                 (OfLanguageVariant languageVariantOfContentItem) (OfParsedItem importContentItem)) ;;
       ret (Some languageVariantOfContentItem))
      (fun error =>
         let throwError := negb (isNotFound error) in
         if throwError then throw error else ret None) ;;
  match languageVariantOfContentItem with
  | None => ret tt
  | Some languageVariantOfContentItem =>
      if isLanguageVariantPublished languageVariantOfContentItem workflows then
        send (createNewVersionOfLanguageVariant client)
             (CreateNewVersionOfLanguageVariant (codename importContentItem) (language importContentItem)) ;;
        processItem ImportedItems ActionType.createNewVersion ItemType.languageVariant
          (mkData (name importContentItem +++ " | " +++ language importContentItem) None None None
                  (OfLanguageVariant languageVariantOfContentItem) (OfParsedItem importContentItem))
      else if isLanguageVariantArchived languageVariantOfContentItem workflows then
        match ref_id (lv_workflowStep languageVariantOfContentItem) with
        | Some id =>
            if Js.truthyStr id then
              workflow <- orThrow (getWorkflowForGivenStepById id workflows) ;;
              match nth_error (wf_steps workflow) 0 with
              | None =>
                  (* [workflow.steps[0]] is [undefined] *)
                  throw (TypeError "Cannot read properties of undefined (reading 'codename')")
              | Some newWorkflowStep =>
                  send (changeWorkflowStepOfLanguageVariant client)
                       (ChangeWorkflowStepOfLanguageVariant
                          (codename importContentItem) (language importContentItem)
                          (step_codename newWorkflowStep)) ;;
                  processItem ImportedItems ActionType.unArchive ItemType.languageVariant
                    (mkData (name importContentItem +++ " | " +++ step_codename newWorkflowStep
                               +++ " | " +++ language importContentItem) None None None
                            (OfLanguageVariant languageVariantOfContentItem)
                            (OfParsedItem importContentItem))
              end
            else ret tt
        | None => ret tt
        end
      else ret tt
  end.

Definition errorMessageOf (error : Thrown) : ErrorMessage :=
  match error with
  | KontentError message _ _ _ _ => Message message
  | Error message => Message message
  | TypeError message => Message message
  | ErrorReport _ _ _ _ => Value error
  end.

(** [!importContentItem.workflow_step] *)
Definition hasWorkflowStep (importContentItem : ParsedContentItem) : bool :=
  Js.truthy (workflow_step importContentItem).

(** The [try] block of the first loop of [importContentItemsAsync]. *)
Definition processContentItem (collections : list Collection)
           (importContentItem : ParsedContentItem) : M unit :=
  if negb (hasWorkflowStep importContentItem) then ret tt
  else
    preparedContentItem <- prepareContentItemForImportAsync importContentItem ;;
    modify (fun w => withPreparedItems w (preparedItems w ++ [preparedContentItem])) ;;
    shouldUpdate <- orThrow (shouldUpdateContentItem importContentItem preparedContentItem collections) ;;
    if (shouldUpdate : bool) then
      upsertedContentItem <-
        send (upsertContentItem client)
             (UpsertContentItem (codename importContentItem) (name importContentItem)
                                (collection importContentItem)) ;;
      processItem ImportedItems ActionType.upsert ItemType.contentItem
        (mkData (name importContentItem) None (Some (codename importContentItem))
                (Some (ci_id upsertedContentItem))
                (OfParsedItem importContentItem) (OfParsedItem importContentItem))
    else
      processItem ImportedItems ActionType.skipUpdate ItemType.contentItem
        (mkData (name importContentItem) None (Some (codename importContentItem))
                (Some (ci_id preparedContentItem))
                (OfParsedItem importContentItem) (OfParsedItem importContentItem)).

(** The [try] block of the second loop. *)
Definition processLanguageVariant (importContentItems : list ParsedContentItem)
           (workflows : list Workflow) (importContentItem : ParsedContentItem) : M unit :=
  if negb (hasWorkflowStep importContentItem) then ret tt
  else
    w <- get ;;
    match find (fun m => String.eqb (ci_codename m) (codename importContentItem)) (preparedItems w) with
    | None =>
        throw (Error ("Invalid content item for codename '" +++ codename importContentItem +++ "'"))
    | Some upsertedContentItem =>
        prepareLanguageVariantForImportAsync importContentItem workflows ;;
        w <- get ;;
        contracts <- orThrow (elementContracts importContentItems (elements importContentItem)
                                               (importedItems w)) ;;
        upsertedLanguageVariant <-
          send (upsertLanguageVariant client)
               (UpsertLanguageVariant (ci_codename upsertedContentItem) (language importContentItem)
                                      contracts) ;;
        modify (fun w => withUpsertedLanguageVariants w
                           (upsertedLanguageVariants w ++ [upsertedLanguageVariant])) ;;
        processItem ImportedItems ActionType.upsert ItemType.languageVariant
          (mkData (ci_name upsertedContentItem +++ " | " +++ language importContentItem)
                  None (Some (codename importContentItem)) (Some (ci_id upsertedContentItem))
                  OfUpsertedLanguageVariants (OfParsedItem importContentItem)) ;;
        match workflow_step importContentItem with
        | None => ret tt
        | Some step =>
            if negb (Js.truthyStr step) then ret tt
            else if doesWorkflowStepCodenameRepresentPublishedStep step workflows then
              send (publishLanguageVariant client)
                   (PublishLanguageVariant (codename importContentItem) (language importContentItem)) ;;
              processItem ImportedItems ActionType.publish ItemType.languageVariant
                (mkData (ci_name upsertedContentItem +++ " | " +++ language importContentItem
                           +++ " | " +++ step)
                        None (Some (codename importContentItem)) (Some (ci_id upsertedContentItem))
                        OfUpsertedLanguageVariants (OfParsedItem importContentItem))
            else if doesWorkflowStepCodenameRepresentArchivedStep step workflows then
              workflow <- orThrow (getWorkflowForGivenStepByCodename step workflows) ;;
              send (changeWorkflowOfLanguageVariant client)
                   (ChangeWorkflowOfLanguageVariant
                      (codename importContentItem) (language importContentItem)
                      (step_codename (wf_archivedStep workflow)) (wf_codename workflow)) ;;
              processItem ImportedItems ActionType.archive ItemType.languageVariant
                (mkData (ci_name upsertedContentItem +++ " " +++ language importContentItem
                           +++ " | " +++ step)
                        None (Some (codename importContentItem)) (Some (ci_id upsertedContentItem))
                        OfUpsertedLanguageVariants (OfParsedItem importContentItem))
            else
              workflow <- orThrow (getWorkflowForGivenStepByCodename step workflows) ;;
              send (changeWorkflowOfLanguageVariant client)
                   (ChangeWorkflowOfLanguageVariant
                      (codename importContentItem) (language importContentItem)
                      step (wf_codename workflow)) ;;
              processItem ImportedItems ActionType.changeWorkflowStep ItemType.languageVariant
                (mkData (ci_name upsertedContentItem +++ " | " +++ language importContentItem
                           +++ " | " +++ step)
                        None (Some (codename importContentItem)) (Some (ci_id upsertedContentItem))
                        OfUpsertedLanguageVariants (OfParsedItem importContentItem))
        end
    end.

(** The two [catch] blocks. *)
Definition onFailedContentItem (importContentItem : ParsedContentItem) (error : Thrown) : M unit :=
  if skipFailedItems config then
    consoleLog (LogFailedItem (codename importContentItem) (errorMessageOf error))
  else throw error.

Definition onFailedLanguageVariant (importContentItem : ParsedContentItem) (error : Thrown) : M unit :=
  if skipFailedItems config then
    consoleLog (LogFailedVariant (codename importContentItem) (language importContentItem)
                                 (errorMessageOf error))
  else throw error.

Definition importContentItemsAsync (importContentItems : list ParsedContentItem)
  : M (list ContentItem * list LanguageVariant) :=
  modify (fun w => withUpsertedLanguageVariants (withPreparedItems w []) []) ;;
  workflows <- getWorkflowsAsync ;;
  collections <- getCollectionsAsync ;;
  forEach importContentItems
          (fun importContentItem =>
             tryCatch (processContentItem collections importContentItem)
                      (onFailedContentItem importContentItem)) ;;
  forEach importContentItems
          (fun importContentItem =>
             tryCatch (processLanguageVariant importContentItems workflows importContentItem)
                      (onFailedLanguageVariant importContentItem)) ;;
  w <- get ;;
  ret (preparedItems w, upsertedLanguageVariants w).

(** The [try] block of [importAsync]. *)
Definition importStages (sourceData : ImportSource) : M unit :=
  (match assets sourceData with
   | _ :: _ =>
       consoleLog (Log "Importing assets") ;;
       importedAssets <- importAssetsAsync (assets sourceData) ;;
       modify (fun w => withImportedItems w (importedItems w ++ importedAssets))
   | [] => consoleLog (Log "There are no assets to import")
   end) ;;
  (match items sourceData with
   | _ :: _ =>
       consoleLog (Log "Importing content items") ;;
       importContentItemsAsync (items sourceData) ;;
       ret tt
   | [] => consoleLog (Log "There are no content items to import")
   end) ;;
  consoleLog (Log "Finished import").

(** The statements of [importAsync] before its [try] block; they give the
    source without the assets and items the filters of the configuration
    refuse. *)
Definition beforeStages (sourceData : ImportSource) : M ImportSource :=
  modify (fun w => withImportedItems w []) ;;
  GlobalHelper.printProjectInfoToConsoleAsync client ;;
  (match metadata sourceData with
   | Some csvManagerVersion =>
       if negb (Js.optEqb (Some packageVersion) csvManagerVersion) then
         consoleLog (Warn "WARNING: Version mismatch.") ;;
         consoleLog (Warn "Import may still succeed, but if it doesn't, please try using the version of the export.")
       else ret tt
   | None => ret tt
   end) ;;
  removeSkippedItemsFromImport sourceData.

Definition importAsync (sourceData : ImportSource) : M (list ImportItemResult) :=
  sourceData <- beforeStages sourceData ;;
  tryCatch (importStages sourceData) handleImportError ;;
  w <- get ;;
  ret (importedItems w).

Definition importFromSourceAsync (sourceData : ImportSource) : M (list ImportItemResult) :=
  importAsync sourceData.

(** What the caller of [importAsync] gets from a run in a fresh world: the
    promise is fulfilled with a list of results, or rejected with what was
    thrown. *)
Definition runImport (sourceData : ImportSource) : Thrown + list ImportItemResult :=
  fst (importAsync sourceData newWorld).

End Service.

End ImportService.

(** * Notions used in the statements *)

Module Spec.

Import IdTranslateHelper.

(** The attribute names of the four passes of [replaceIdsInRichText] that
    resolve by id. *)
Definition idAttributes : list string :=
  ["data-item-id"; "data-asset-id"; "data-image-id"; "data-id"].

(** [id] does not resolve: the lookup gives [undefined] or an empty string. *)
Definition unresolvedId (items : list ImportItemResult) (id : string) : Prop :=
  Js.truthy (tryFindNewId (Some id) items) = false.

Definition unresolvedCodename (items : list ImportItemResult) (codename : string) : Prop :=
  Js.truthy (tryFindNewIdForCodename codename items) = false.

(** An entry registered for the id, or for the codename. *)
Definition registersId (id : string) (m : ImportItemResult) : bool :=
  Js.optEqb (originalId m) (Some id).

Definition registersCodename (codename : string) (m : ImportItemResult) : bool :=
  Js.optEqb (originalCodename m) (Some codename).

(** An entry with its codename index, or its id index, replaced. *)
Definition withCodename (f : ImportItemResult -> option string) (m : ImportItemResult) : ImportItemResult :=
  mkResult (imported m) (original m) (importId m) (originalId m) (f m).

Definition withOriginalId (f : ImportItemResult -> option string) (m : ImportItemResult) : ImportItemResult :=
  mkResult (imported m) (original m) (importId m) (f m) (originalCodename m).

(** The array [processItem] is given, in a world. *)
Definition ledgerOf (ledger : Ledger) (w : World) : list ImportItemResult :=
  match ledger with
  | ImportedItems => importedItems w
  | ImportedAssets => importedAssets w
  end.

(** The depth of the deepest value of an object. *)
Definition deepest (o : list (string * JsValue)) : nat :=
  fold_right (fun kv d => Nat.max (depth (snd kv)) d) 0 o.

(** A reference that the rewrite leaves alone: the lookup of the id
    gives nothing, or an empty string, or the id itself. *)
Definition settledId (items : list ImportItemResult) (id : option string) : bool :=
  match tryFindNewId id items with
  | Some new => negb (Js.truthyStr new) || Js.optEqb (Some new) id
  | None => true
  end.

Definition settledMarker (items : list ImportItemResult) (p : Js.Piece) : bool :=
  match p with
  | Js.Marker b => negb (Js.truthyStr b) || settledId items (Some b)
  | Js.Copied _ => true
  end.

(** No codename is left to translate: the codename of a marker is empty. *)
Definition noCodename (p : Js.Piece) : bool :=
  match p with
  | Js.Marker b => negb (Js.truthyStr b)
  | Js.Copied _ => true
  end.

(** A rich text all of whose references are settled. *)
Definition settledText (items : list ImportItemResult) (text : string) : bool :=
  forallb noCodename (Js.pieces "data-codename" text)
  && forallb (fun attr => forallb (settledMarker items) (Js.pieces attr text)) idAttributes.

Definition settledIdValue (items : list ImportItemResult) (v : JsValue) : bool :=
  match idOf v with
  | Some id => settledId items id
  | None => true
  end.

(** [key.toLowerCase() === 'id'] *)
Definition isIdKey (key : string) : bool := String.eqb (Js.toLowerCase key) "id".

(** A tree all of whose references are settled: the strings between [<]
    and [>] held by properties are settled rich texts; a key equal to [id]
    but for case is [id] itself, and the value it holds is settled. *)
Fixpoint settledTree (items : list ImportItemResult) (v : JsValue) : bool :=
  match v with
  | JArr elements => forallb (settledTree items) elements
  | JObj properties =>
      forallb (fun kv =>
                 (if isIdKey (fst kv) then String.eqb (fst kv) "id" else true)
                 && match snd kv with
                    | JStr s =>
                        if Js.startsWith "<" s && Js.endsWith ">" s then settledText items s else true
                    | _ => settledTree items (snd kv)
                    end) properties
      && (if existsb isIdKey (Obj.keys properties)
          then settledIdValue items (Obj.get "id" properties) else true)
  | _ => true
  end.

(** The step codename is one of the workflow: its archived step, its
    published step, or one of its [steps]. *)
Definition hasStepCodename (codename : string) (w : Workflow) : bool :=
  String.eqb (step_codename (wf_archivedStep w)) codename
  || String.eqb (step_codename (wf_publishedStep w)) codename
  || existsb (fun m => String.eqb (step_codename m) codename) (wf_steps w).

Definition hasStepId (id : string) (w : Workflow) : bool :=
  String.eqb (step_id (wf_archivedStep w)) id
  || String.eqb (step_id (wf_publishedStep w)) id
  || existsb (fun m => String.eqb (step_id m) id) (wf_steps w).

(** The workflow has the codename of the default workflow, but for case. *)
Definition isDefaultWorkflow (defaultWorkflowCodename : string) (w : Workflow) : bool :=
  String.eqb (Js.toLowerCase (wf_codename w)) (Js.toLowerCase defaultWorkflowCodename).

(** [w] is the first element of [l] that satisfies [p]. *)
Definition firstWith {A : Type} (p : A -> bool) (l : list A) (w : A) : Prop :=
  exists pre post, l = pre ++ w :: post /\ p w = true /\ forall x, In x pre -> p x = false.

(** The requests that move a language variant in its workflow. *)
Definition isWorkflowOperation (r : Request) : bool :=
  match r with
  | PublishLanguageVariant _ _
  | ChangeWorkflowOfLanguageVariant _ _ _ _
  | ChangeWorkflowStepOfLanguageVariant _ _ _
  | CreateNewVersionOfLanguageVariant _ _ => true
  | _ => false
  end.

(** The two entries that [importAssetsAsync] registers for an asset found
    in the target: the one of the fetch and the one of the skip are equal. *)
Definition existingAssetEntry (asset : ImportAsset) (existing : Asset) : ImportItemResult :=
  mkResult (OfAsset existing) (OfImportAsset asset) (Some (asset_id existing))
           (Some (assetId asset)) None.

(** The ledger [importedItems] in [w'] is the one in [w] with entries
    pushed at its end: nothing was removed or replaced. *)
Definition extends (w w' : World) : Prop :=
  exists more, importedItems w' = importedItems w ++ more.

(** A computation that only pushes to the ledger, however it ends. *)
Definition growing {A : Type} (m : M A) : Prop :=
  forall w r w', m w = (r, w') -> extends w w'.

End Spec.

(** * Data of the examples *)

Module Examples.

Definition entryForId (id new : string) : ImportItemResult :=
  mkResult OfUpsertedLanguageVariants OfUpsertedLanguageVariants (Some new) (Some id) None.

Definition entryForCodename (codename new : string) : ImportItemResult :=
  mkResult OfUpsertedLanguageVariants OfUpsertedLanguageVariants (Some new) None (Some codename).

(** [<a data-codename="">] *)
Definition emptyCodenameLink : string := "<a " +++ Js.attrEq "data-codename" "" +++ ">".

(** [<a data-item-id="i1" data-codename="c1">] *)
Definition twoMarkers : string :=
  "<a " +++ Js.attrEq "data-item-id" "i1" +++ " " +++ Js.attrEq "data-codename" "c1" +++ ">".

(** [a] was imported as [b], and [b] as [c]. *)
Definition chain : list ImportItemResult := [entryForId "a" "b"; entryForId "b" "c"].

(** [<img data-asset-id="a">] and the like *)
Definition image (id : string) : string := "<img " +++ Js.attrEq "data-asset-id" id +++ ">".

(** [{ codename: "hero", value: "<img data-asset-id=...>", id: ... }] *)
Definition element (id : string) : JsValue :=
  JObj [("codename", JStr "hero"); ("value", JStr (image id)); ("id", JStr id)].

(** [{ Id: "x" }], and a ledger whose one entry was registered by codename *)
Definition upperCaseId : JsValue := JObj [("Id", JStr "x")].

Definition onlyCodenames : list ImportItemResult := [entryForCodename "article" "g"].

End Examples.

(** Clients and a configuration for the examples. *)
Module Fixtures.

Definition noAnswer {A : Type} : list Request -> Thrown + A :=
  fun _ => inl (Error "no answer").

(** A client that fails every request but the ones given. *)
Definition clientWith
           (viewAsset : list Request -> Thrown + Asset)
           (viewContentItem : list Request -> Thrown + ContentItem)
           (viewLanguageVariant : list Request -> Thrown + LanguageVariant)
           (listWorkflows : list Request -> Thrown + list Workflow)
           (listCollections : list Request -> Thrown + list Collection) : Client :=
  mkClient (fun _ => inr ("project", "production"))
           viewAsset noAnswer noAnswer listWorkflows listCollections
           viewContentItem noAnswer noAnswer
           viewLanguageVariant
           (fun _ => inr (mkVariant (mkReference None None) (mkReference None None) (mkReference None None)))
           (fun _ => inr tt) (fun _ => inr tt) (fun _ => inr tt) (fun _ => inr tt).

Definition config (skipFailedItems : bool) : ImportConfig := mkConfig None None skipFailedItems.

Definition noContract : JsValue -> string -> string -> list ImportItemResult ->
                        list ParsedContentItem -> Thrown + option JsValue :=
  fun _ _ _ _ _ => inr None.

Definition textContract : JsValue -> string -> string -> list ImportItemResult ->
                          list ParsedContentItem -> Thrown + option JsValue :=
  fun value _ _ _ _ => inr (Some value).

(** The target has an asset for every external id. *)
Definition everyAssetExists : Client :=
  clientWith (fun _ => inr (mkAsset "target-asset" None)) noAnswer noAnswer noAnswer noAnswer.

Definition picture : ImportAsset := mkImportAsset "a1" "picture.png" (Some "image/png") "binary".

Definition onlyPicture : ImportSource := mkSource None [picture] [].

(** Two workflows; the first is the default one. *)
Definition defaultWorkflow : Workflow :=
  mkWorkflow "Default" [mkStep "d1" "draft"; mkStep "d2" "review"]
             (mkStep "d3" "published") (mkStep "d4" "archived").

Definition newsWorkflow : Workflow :=
  mkWorkflow "news" [mkStep "n1" "written"; mkStep "n2" "checked"]
             (mkStep "n3" "live") (mkStep "n4" "retired").

Definition workflows : list Workflow := [defaultWorkflow; newsWorkflow].

(** The target has the item [home], in the collection [default]. *)
Definition home : ContentItem :=
  mkContentItem "item-1" "Home" "home" (mkReference (Some "col-1") None).

Definition collections : list Collection :=
  [mkCollection "col-1" "default"; mkCollection "col-2" "marketing"].

Definition homeExists : Client :=
  clientWith noAnswer (fun _ => inr home) noAnswer (fun _ => inr workflows) (fun _ => inr collections).

(** The source has the item [home] with the same name, in the collection
    given. *)
Definition homeOf (collection : string) : ParsedContentItem :=
  mkParsedItem "home" "Home" "page" collection "en" (Some "published") [].

(** The same target, without collections: the collection of a source item
    is invalid.  The lookup of a language variant fails. *)
Definition homeExistsNoCollection : Client :=
  clientWith noAnswer (fun _ => inr home) noAnswer (fun _ => inr workflows) (fun _ => inr []).

Definition onlyHome : ImportSource := mkSource None [] [homeOf "marketing"].

(** The target has the item [home] and its English variant, archived in
    the workflow [news]; every request succeeds. *)
Definition archivedVariant : LanguageVariant :=
  mkVariant (mkReference (Some "item-1") None) (mkReference None (Some "en"))
            (mkReference (Some "n4") None).

Definition homeArchived : Client :=
  clientWith noAnswer (fun _ => inr home) (fun _ => inr archivedVariant)
             (fun _ => inr workflows) (fun _ => inr collections).

(** The source has [home] at the step [live], the published step of the
    workflow [news]. *)
Definition homeLive : ParsedContentItem :=
  mkParsedItem "home" "Home" "page" "default" "en" (Some "live")
               [mkElement "title" "text" (JStr "Home")].

(** The world after the first loop has prepared [home]. *)
Definition homePrepared : World := withPreparedItems newWorld [home].

(** The target has the asset [a1]; any other lookup of an asset fails
    with an error of the management API that is no 404. *)
Definition serverError : Thrown := KontentError "Server error" 0 "request-1" [] (Some 500%Z).

Definition secondLookupFails : Client :=
  clientWith (fun trace => match last trace ProjectInformation with
                           | ViewAssetByExternalId "a1" => inr (mkAsset "target-asset" None)
                           | _ => inl serverError
                           end)
             noAnswer noAnswer noAnswer noAnswer.

Definition logo : ImportAsset := mkImportAsset "a2" "logo.svg" None "binary".

Definition twoAssets : ImportSource := mkSource None [picture; logo] [].

End Fixtures.

(** * More of the sources *)

(** ** global-helper.ts: the pure functions *)

Module Helpers.

(** [s.includes(c)] for a one-character [c]. *)
Fixpoint includes (c : ascii) (s : string) : bool :=
  match s with
  | "" => false
  | String x s' => Ascii.eqb x c || includes c s'
  end.

(** [s.split(c)]: the segments between the occurrences of [c]; one segment
    more than there are occurrences. *)
Fixpoint split (c : ascii) (s : string) : list string :=
  match s with
  | "" => [""]
  | String x s' =>
      if Ascii.eqb x c then "" :: split c s'
      else match split c s' with
           | segment :: segments => String x segment :: segments
           | [] => [String x ""]
           end
  end.

(** [l.slice(0, -1)] is [removelast l]; [l.join(sep)] is
    [GlobalHelper.join sep l]. *)
Definition getFilenameWithoutExtension (filename : string) : Thrown + string :=
  if negb (Js.truthyStr filename) then inl (Error "Invalid filename")
  else if negb (includes "." filename) then inr filename
  else inr (GlobalHelper.join "." (removelast (split "." filename))).

(** Numbers as the operators on 32 bits see them. *)
Definition toInt32 (z : Z) : Z := ((z + 2147483648) mod 4294967296 - 2147483648)%Z.

Definition toUint32 (z : Z) : Z := (z mod 4294967296)%Z.

(** [Math.imul(a, b)] *)
Definition imul (a b : Z) : Z := toInt32 (toInt32 a * toInt32 b).

(** [a ^ b], [a & b] and [a >>> n] *)
Definition xor32 (a b : Z) : Z := toInt32 (Z.lxor (toInt32 a) (toInt32 b)).

Definition and32 (a b : Z) : Z := toInt32 (Z.land (toInt32 a) (toInt32 b)).

Definition ushr (a n : Z) : Z := Z.shiftr (toUint32 a) n.

(** [str.charCodeAt(i)] *)
Definition charCode (c : ascii) : Z := Z.of_nat (nat_of_ascii c).

(** The loop of [getHashCode] over the characters, on the pair [(h1, h2)]. *)
Fixpoint hashLoop (str : string) (h : Z * Z) : Z * Z :=
  match str with
  | "" => h
  | String c str' =>
      let ch := charCode c in
      let h1 := imul (xor32 (fst h) ch) 2654435761 in
      let h2 := imul (xor32 (snd h) ch) 1597334677 in
      hashLoop str' (h1, h2)
  end.

Definition getHashCode (str : string) : Z :=
  let seed := 1%Z in
  let h1 := xor32 3735928559 seed in
  let h2 := xor32 1103547991 seed in
  let '(h1, h2) := hashLoop str (h1, h2) in
  let h1 := xor32 (imul (xor32 h1 (ushr h1 16)) 2246822507) (imul (xor32 h2 (ushr h2 13)) 3266489909) in
  let h2 := xor32 (imul (xor32 h2 (ushr h2 16)) 2246822507) (imul (xor32 h1 (ushr h1 13)) 3266489909) in
  (4294967296 * and32 2097151 h2 + ushr h1 0)%Z.

End Helpers.

(** ** Notions and data of the further properties *)

Module More.

(** The four requests that the import of one asset may send, in order. *)
Definition assetRequests (asset : ImportAsset) (file : string) : list Request :=
  [ViewAssetByExternalId (assetId asset);
   ViewAssetByExternalId (assetId asset);
   UploadBinaryFile (binaryData asset) (match mimeType asset with Some t => t | None => "" end)
                    (filename asset);
   AddAsset file (assetId asset)].

(** An entry that registers an original id has an import id. *)
Definition resolvable (m : ImportItemResult) : Prop :=
  originalId m = None \/ exists new, importId m = Some new.

(** A filter that accepts the assets with the external id [a1]. *)
Definition onlyA1 : ImportConfig :=
  mkConfig (Some (fun a => String.eqb (assetId a) "a1")) None false.

(** The target has no asset; uploads and creations succeed. *)
Definition notFound : Thrown := KontentError "Not found" 100 "request-2" [] (Some 404%Z).

Definition emptyTarget : Client :=
  mkClient (fun _ => inr ("project", "production"))
           (fun _ => inl notFound)
           (fun _ => inr (mkBinaryFile "file-1"))
           (fun _ => inr (mkAsset "asset-1" (Some "a1")))
           (fun _ => inr Fixtures.workflows) (fun _ => inr Fixtures.collections)
           (fun _ => inl notFound)
           (fun _ => inr (mkContentItem "item-9" "Home" "home" (mkReference (Some "col-1") None)))
           (fun _ => inr Fixtures.home)
           (fun _ => inl notFound)
           (fun _ => inr (mkVariant (mkReference None None) (mkReference None None)
                                    (mkReference None None)))
           (fun _ => inr tt) (fun _ => inr tt) (fun _ => inr tt) (fun _ => inr tt).

(** The project information cannot be read. *)
Definition unreachable : Client :=
  mkClient (fun _ => inl Fixtures.serverError) Fixtures.noAnswer Fixtures.noAnswer Fixtures.noAnswer
           Fixtures.noAnswer Fixtures.noAnswer Fixtures.noAnswer Fixtures.noAnswer
           Fixtures.noAnswer Fixtures.noAnswer Fixtures.noAnswer Fixtures.noAnswer
           Fixtures.noAnswer Fixtures.noAnswer Fixtures.noAnswer.

(** The variant of [home] is published in the workflow [news]. *)
Definition publishedVariant : LanguageVariant :=
  mkVariant (mkReference (Some "item-1") None) (mkReference None (Some "en"))
            (mkReference (Some "n3") None).

Definition homePublished : Client :=
  Fixtures.clientWith Fixtures.noAnswer (fun _ => inr Fixtures.home) (fun _ => inr publishedVariant)
                      (fun _ => inr Fixtures.workflows) (fun _ => inr Fixtures.collections).

(** A component: an item without a workflow step. *)
Definition component : ParsedContentItem :=
  mkParsedItem "quote" "Quote" "quote" "default" "en" None [].

(** [home] at the step [retired], the archived step of the workflow [news]. *)
Definition homeRetired : ParsedContentItem :=
  mkParsedItem "home" "Home" "page" "default" "en" (Some "retired")
               [mkElement "title" "text" (JStr "Home")].

(** [home] at a step that no workflow of the target has. *)
Definition homeUnknown : ParsedContentItem :=
  mkParsedItem "home" "Home" "page" "default" "en" (Some "unknown")
               [mkElement "title" "text" (JStr "Home")].

End More.

(** * Properties *)

(** ** Strings and the global replace *)

Module JsFacts.

Import Js.

Lemma append_assoc (a b c : string) : (a +++ b) +++ c = a +++ b +++ c.
Proof. induction a as [|x a IH]; simpl; [reflexivity | now rewrite IH]. Qed.

Lemma length_append (a b : string) : String.length (a +++ b) = String.length a + String.length b.
Proof. induction a as [|x a IH]; simpl; [reflexivity | now rewrite IH]. Qed.

Lemma lazyUntilQuote_spec (s b rest : string) :
  lazyUntilQuote s = Some (b, rest) -> s = b +++ String dquote rest.
Proof.
  revert b rest. induction s as [|c s IH]; intros b rest H; simpl in H; [discriminate|].
  destruct (Ascii.eqb c dquote) eqn:Hq.
  - apply Ascii.eqb_eq in Hq. inversion H; subst. reflexivity.
  - destruct (isLineTerminator c); [discriminate|].
    destruct (lazyUntilQuote s) as [[b' rest']|] eqn:Hs; [|discriminate].
    inversion H; subst. simpl. f_equal. now apply IH.
Qed.

Lemma dropPrefix_spec (p s r : string) : dropPrefix p s = Some r -> s = p +++ r.
Proof.
  revert s. induction p as [|a p IH]; intros s H; simpl in H.
  - now inversion H.
  - destruct s as [|b s]; [discriminate|].
    destruct (Ascii.eqb a b) eqn:Hab; [|discriminate].
    apply Ascii.eqb_eq in Hab. subst. simpl. f_equal. now apply IH.
Qed.

(** A match is the marker [attr="b"], at the start of the text. *)
Lemma matchAt_spec (attr s b rest : string) :
  matchAt attr s = Some (b, rest) -> s = attrEq attr b +++ rest.
Proof.
  unfold matchAt, attrEq. intros H.
  destruct (dropPrefix _ s) as [s1|] eqn:Hp; [|discriminate].
  apply dropPrefix_spec in Hp. apply lazyUntilQuote_spec in H. subst.
  rewrite !append_assoc. simpl. rewrite append_assoc. reflexivity.
Qed.

Lemma matchAt_shorter (attr s b rest : string) :
  matchAt attr s = Some (b, rest) -> String.length rest < String.length s.
Proof.
  intros H. apply matchAt_spec in H. subst. unfold attrEq.
  rewrite !length_append. simpl. rewrite length_append. simpl. lia.
Qed.

(** The pieces of a text put together give the text back. *)
Lemma piecesFuel_source (attr : string) (n : nat) (s : string) :
  String.length s <= n -> concatStr (map (source attr) (piecesFuel n attr s)) = s.
Proof.
  revert s. induction n as [|n IH]; intros s Hn.
  - destruct s; [reflexivity | simpl in Hn; lia].
  - destruct s as [|c s]; [reflexivity|].
    cbn [piecesFuel]. destruct (matchAt attr (String c s)) as [[b rest]|] eqn:Hm.
    + pose proof (matchAt_shorter _ _ _ _ Hm) as Hlt.
      cbn [map concatStr source]. rewrite IH by lia.
      symmetry. now apply matchAt_spec.
    + cbn [map concatStr source]. simpl in Hn. rewrite IH by lia. reflexivity.
Qed.

(** The replace puts the replacer's result in the place of each marker. *)
Lemma replaceFuel_pieces (attr : string) (f : string -> string -> string) (n : nat) (s : string) :
  String.length s <= n ->
  replaceFuel n attr f s = concatStr (map (replaced attr f) (piecesFuel n attr s)).
Proof.
  revert s. induction n as [|n IH]; intros s Hn.
  - destruct s; [reflexivity | simpl in Hn; lia].
  - destruct s as [|c s]; [reflexivity|].
    cbn [replaceFuel piecesFuel]. destruct (matchAt attr (String c s)) as [[b rest]|] eqn:Hm.
    + pose proof (matchAt_shorter _ _ _ _ Hm) as Hlt.
      cbn [map concatStr replaced]. rewrite IH by lia. reflexivity.
    + cbn [map concatStr replaced]. simpl in Hn. rewrite IH by lia. reflexivity.
Qed.

Lemma pieces_source (attr s : string) : concatStr (map (source attr) (pieces attr s)) = s.
Proof. apply piecesFuel_source. apply Nat.le_refl. Qed.

Lemma replaceRegex_pieces (attr : string) (f : string -> string -> string) (s : string) :
  replaceRegex attr f s = concatStr (map (replaced attr f) (pieces attr s)).
Proof. apply replaceFuel_pieces. apply Nat.le_refl. Qed.

(** More fuel than the length of the text changes nothing. *)
Lemma piecesFuel_irrelevant (attr : string) (n m : nat) (s : string) :
  String.length s <= n -> String.length s <= m -> piecesFuel n attr s = piecesFuel m attr s.
Proof.
  revert m s. induction n as [|n IH]; intros m s Hn Hm.
  - destruct s; [destruct m; reflexivity | simpl in Hn; lia].
  - destruct s as [|c s]; [destruct m; reflexivity|].
    destruct m as [|m]; [simpl in Hm; lia|].
    cbn [piecesFuel]. simpl in Hn, Hm.
    destruct (matchAt attr (String c s)) as [[b rest]|] eqn:Hmatch.
    + pose proof (matchAt_shorter _ _ _ _ Hmatch) as Hlt. simpl in Hlt.
      f_equal. apply IH; lia.
    + f_equal. apply IH; lia.
Qed.

Lemma piecesFuel_enough (attr : string) (n : nat) (s : string) :
  String.length s <= n -> piecesFuel n attr s = pieces attr s.
Proof. intros H. apply piecesFuel_irrelevant; [assumption | apply Nat.le_refl]. Qed.

(** The two equations of the scan. *)
Lemma pieces_match (attr s b rest : string) :
  matchAt attr s = Some (b, rest) -> pieces attr s = Marker b :: pieces attr rest.
Proof.
  intros Hm. pose proof (matchAt_shorter _ _ _ _ Hm) as Hlt.
  unfold pieces at 1. destruct s as [|c s]; [simpl in Hlt; lia|].
  cbn [String.length piecesFuel]. rewrite Hm. f_equal.
  apply piecesFuel_enough. simpl in Hlt. lia.
Qed.

Lemma pieces_nomatch (attr : string) (c : ascii) (s : string) :
  matchAt attr (String c s) = None -> pieces attr (String c s) = Copied c :: pieces attr s.
Proof.
  intros Hm. unfold pieces at 1. cbn [String.length piecesFuel]. rewrite Hm. reflexivity.
Qed.

(** A replacer that gives every marker back leaves the text as it is. *)
Lemma replaceRegex_unchanged (attr : string) (f : string -> string -> string) (s : string) :
  (forall b, In (Marker b) (pieces attr s) -> f (attrEq attr b) b = attrEq attr b) ->
  replaceRegex attr f s = s.
Proof.
  intros H. rewrite replaceRegex_pieces. rewrite <- (pieces_source attr s) at 2.
  f_equal. apply map_ext_in. intros [c|b] Hin; simpl; [reflexivity|]. now apply H.
Qed.

End JsFacts.

(** ** The translation table *)

Module TranslationTable.

Import IdTranslateHelper Spec.

Lemma find_first {A : Type} (p : A -> bool) (pre : list A) (e : A) (post : list A) :
  p e = true -> (forall m, In m pre -> p m = false) -> find p (pre ++ e :: post) = Some e.
Proof.
  intros He Hpre. induction pre as [|x pre IH]; simpl.
  - now rewrite He.
  - rewrite (Hpre x) by now left. apply IH. intros m Hm. apply Hpre. now right.
Qed.

Lemma find_app_found {A : Type} (p : A -> bool) (l more : list A) :
  existsb p l = true -> find p (l ++ more) = find p l.
Proof.
  induction l as [|x l IH]; simpl; [discriminate|].
  destruct (p x); [reflexivity|]. simpl. exact IH.
Qed.

Lemma find_map_same {A : Type} (p : A -> bool) (g : A -> A) (l : list A) :
  (forall m, p (g m) = p m) -> find p (map g l) = option_map g (find p l).
Proof.
  intros H. induction l as [|x l IH]; simpl; [reflexivity|].
  rewrite H. destruct (p x); [reflexivity | exact IH].
Qed.

(** C9, as amended: the table is the ledger itself and may hold several
    entries for one original id.  [processItem] registers by pushing at the
    end, so that no entry is overwritten; a lookup by id (by codename)
    gives the [importId] of the first entry registered for the id (the
    codename), whatever is registered later; a lookup by id does not read
    the codenames of the entries, and a lookup by codename does not read
    their original ids. *)
Theorem first_registration_wins (items : list ImportItemResult) :
  (forall ledger actionType itemType data w,
      exists w', ImportService.processItem ledger actionType itemType data w = (inr tt, w')
                 /\ ledgerOf ledger w' =
                    ledgerOf ledger w ++
                    [mkResult (data_imported data) (data_original data) (data_importedId data)
                              (data_originalId data) (data_originalCodename data)])
  /\ (forall id pre e post,
         items = pre ++ e :: post -> registersId id e = true ->
         (forall m, In m pre -> registersId id m = false) ->
         forall more, tryFindNewId (Some id) (items ++ more) = importId e)
  /\ (forall codename pre e post,
         items = pre ++ e :: post -> registersCodename codename e = true ->
         (forall m, In m pre -> registersCodename codename m = false) ->
         forall more, tryFindNewIdForCodename codename (items ++ more) = importId e)
  /\ (forall id f, tryFindNewId id (map (withCodename f) items) = tryFindNewId id items)
  /\ (forall codename f,
         tryFindNewIdForCodename codename (map (withOriginalId f) items)
         = tryFindNewIdForCodename codename items).
Proof.
  repeat split.
  - intros ledger actionType itemType data w.
    destruct ledger, actionType; eexists; (split; [reflexivity|]); reflexivity.
  - intros id pre e post -> He Hpre more. unfold tryFindNewId.
    rewrite <- app_assoc. simpl.
    rewrite (find_first (fun m => Js.optEqb (originalId m) (Some id)) pre e (post ++ more) He Hpre).
    reflexivity.
  - intros codename pre e post -> He Hpre more. unfold tryFindNewIdForCodename.
    rewrite <- app_assoc. simpl.
    rewrite (find_first (fun m => Js.optEqb (originalCodename m) (Some codename))
                        pre e (post ++ more) He Hpre).
    reflexivity.
  - intros id f. unfold tryFindNewId.
    rewrite (find_map_same (fun m => Js.optEqb (originalId m) id) (withCodename f)) by reflexivity.
    destruct (find _ items); reflexivity.
  - intros codename f. unfold tryFindNewIdForCodename.
    rewrite (find_map_same (fun m => Js.optEqb (originalCodename m) (Some codename)) (withOriginalId f))
      by reflexivity.
    destruct (find _ items); reflexivity.
Qed.

(** Two registrations of the id [a]: the lookup gives the first. *)
Lemma first_registration_wins_witness :
  tryFindNewId (Some "a") ([Examples.entryForCodename "c" "x"; Examples.entryForId "a" "first";
                            Examples.entryForId "a" "second"] ++ [Examples.entryForId "a" "third"])
  = Some "first".
Proof.
  pose proof (first_registration_wins
                [Examples.entryForCodename "c" "x"; Examples.entryForId "a" "first";
                 Examples.entryForId "a" "second"]) as (_ & H & _).
  apply (H "a" [Examples.entryForCodename "c" "x"] (Examples.entryForId "a" "first")
           [Examples.entryForId "a" "second"]).
  - reflexivity.
  - reflexivity.
  - intros m [<-|[]]. reflexivity.
Defined.

(** C9 as stated fails: the import of an asset that the target already
    has returns a ledger with two entries for the one original id. *)
Lemma two_entries_for_one_original_id :
  exists e1 e2,
    ImportService.runImport Fixtures.everyAssetExists (Fixtures.config false) "default"
                            Fixtures.noContract Fixtures.onlyPicture
    = inr [e1; e2]
    /\ originalId e1 = Some "a1" /\ originalId e2 = Some "a1".
Proof. do 2 eexists. split; [vm_compute; reflexivity | split; reflexivity]. Qed.

End TranslationTable.

(** ** The rewrite of rich text *)

Module RichText.

Import Js IdTranslateHelper Spec JsFacts.

(** C2, as amended.  A pass of the rewriter cuts the text into the
    characters it copies and the markers it finds, and puts the replacer's
    result in the place of each marker.  In a pass that resolves by id, a
    marker whose id does not resolve is put back byte for byte.  In the
    pass that resolves by codename, a marker whose codename is not empty and
    does not resolve becomes [replaceAttr="ahoj"] (the fixed placeholder,
    under the attribute [data-id] in [replaceIdsInRichText]); a marker with
    an empty codename is put back as it is. *)
Theorem unresolved_markers (items : list ImportItemResult) (text regexAttr replaceAttr : string) :
  concatStr (map (source regexAttr) (pieces regexAttr text)) = text
  /\ replaceIdWithRegex regexAttr text replaceAttr items
     = concatStr (map (replaced regexAttr (idReplacer replaceAttr items)) (pieces regexAttr text))
  /\ replaceCodenameWithRegex regexAttr text replaceAttr items
     = concatStr (map (replaced regexAttr (codenameReplacer replaceAttr items)) (pieces regexAttr text))
  /\ (forall b, unresolvedId items b ->
                replaced regexAttr (idReplacer replaceAttr items) (Marker b) = source regexAttr (Marker b))
  /\ (forall b, unresolvedCodename items b -> b <> "" ->
                replaced regexAttr (codenameReplacer replaceAttr items) (Marker b)
                = attrEq replaceAttr "ahoj")
  /\ replaced regexAttr (codenameReplacer replaceAttr items) (Marker "") = source regexAttr (Marker "").
Proof.
  split; [apply pieces_source|].
  split; [apply replaceRegex_pieces|].
  split; [apply replaceRegex_pieces|].
  split; [|split].
  - intros b Hb. unfold unresolvedId in Hb. cbn [replaced source]. unfold idReplacer.
    destruct (truthyStr b); [|reflexivity].
    destruct (tryFindNewId (Some b) items) as [new|]; [|reflexivity].
    simpl in Hb. now rewrite Hb.
  - intros b Hb Hne. unfold unresolvedCodename in Hb. cbn [replaced]. unfold codenameReplacer.
    destruct b as [|c b]; [congruence|]. cbn [truthyStr].
    destruct (tryFindNewIdForCodename (String c b) items) as [new|]; [|reflexivity].
    simpl in Hb. now rewrite Hb.
  - reflexivity.
Qed.

(** With an empty table, the marker [data-item-id="i1"] is put back and
    the marker [data-codename="c1"] becomes [data-id="ahoj"]. *)
Lemma unresolved_markers_witness :
  replaced "data-item-id" (idReplacer "data-item-id" []) (Marker "i1") = attrEq "data-item-id" "i1"
  /\ replaced "data-codename" (codenameReplacer "data-id" []) (Marker "c1") = attrEq "data-id" "ahoj".
Proof.
  split.
  - pose proof (unresolved_markers [] Examples.twoMarkers "data-item-id" "data-item-id")
      as (_ & _ & _ & H & _).
    apply (H "i1"). reflexivity.
  - pose proof (unresolved_markers [] Examples.twoMarkers "data-codename" "data-id")
      as (_ & _ & _ & _ & H & _).
    apply (H "c1"); [reflexivity | discriminate].
Defined.

(** C2 as stated fails on [<a data-codename="">]: the marker's codename
    does not resolve, and the rewrite leaves the marker as it is, not the
    placeholder. *)
Lemma empty_codename_marker_is_kept :
  pieces "data-codename" Examples.emptyCodenameLink
  = [Copied "<"; Copied "a"; Copied " "; Marker ""; Copied ">"]
  /\ unresolvedCodename [] ""
  /\ replaceIdsInRichText Examples.emptyCodenameLink [] = Examples.emptyCodenameLink
  /\ replaceIdsInRichText Examples.emptyCodenameLink []
     <> "<a " +++ attrEq "data-id" "ahoj" +++ ">".
Proof. repeat split; vm_compute; congruence. Qed.

(** A settled rich text is left as it is by each pass, hence by all five. *)
Lemma idReplacer_settled (items : list ImportItemResult) (attr b : string) :
  settledMarker items (Marker b) = true -> idReplacer attr items (attrEq attr b) b = attrEq attr b.
Proof.
  unfold settledMarker, settledId, idReplacer. intros H.
  destruct (truthyStr b); [|reflexivity]. simpl in H.
  destruct (tryFindNewId (Some b) items) as [new|]; [|reflexivity].
  destruct (truthyStr new); [|reflexivity]. simpl in H.
  apply String.eqb_eq in H. now subst.
Qed.

Lemma replaceIdWithRegex_settled (items : list ImportItemResult) (attr text : string) :
  forallb (settledMarker items) (pieces attr text) = true ->
  replaceIdWithRegex attr text attr items = text.
Proof.
  intros H. apply replaceRegex_unchanged. intros b Hb.
  apply idReplacer_settled. rewrite forallb_forall in H. now apply H.
Qed.

Lemma replaceCodenameWithRegex_settled (items : list ImportItemResult) (attr replaceAttr text : string) :
  forallb noCodename (pieces attr text) = true ->
  replaceCodenameWithRegex attr text replaceAttr items = text.
Proof.
  intros H. apply replaceRegex_unchanged. intros b Hb.
  rewrite forallb_forall in H. specialize (H _ Hb). simpl in H.
  unfold codenameReplacer. destruct (truthyStr b); [discriminate | reflexivity].
Qed.

Lemma replaceIdsInRichText_settled (items : list ImportItemResult) (text : string) :
  settledText items text = true -> replaceIdsInRichText text items = text.
Proof.
  unfold settledText, idAttributes. intros H.
  apply andb_prop in H as [Hc H]. cbn [forallb] in H.
  repeat (apply andb_prop in H as [? H]).
  unfold replaceIdsInRichText.
  rewrite (replaceCodenameWithRegex_settled items _ _ text Hc).
  rewrite (replaceIdWithRegex_settled items "data-item-id" text) by assumption.
  rewrite (replaceIdWithRegex_settled items "data-asset-id" text) by assumption.
  rewrite (replaceIdWithRegex_settled items "data-image-id" text) by assumption.
  now apply replaceIdWithRegex_settled.
Qed.

End RichText.

(** ** The walk over a tree of values *)

Module TreeWalk.

Import Js IdTranslateHelper Spec.

Lemma set_same (key : string) (o : list (string * JsValue)) :
  In key (Obj.keys o) -> Obj.set key (Obj.get key o) o = o.
Proof.
  induction o as [|[k v] o IH]; simpl; [tauto|]. intros H.
  destruct (String.eqb k key) eqn:E; [reflexivity|].
  f_equal. apply IH. destruct H as [H|H]; [|exact H].
  apply String.eqb_neq in E. congruence.
Qed.

Lemma get_in (key : string) (o : list (string * JsValue)) :
  In key (Obj.keys o) -> In (key, Obj.get key o) o.
Proof.
  induction o as [|[k v] o IH]; simpl; [tauto|]. intros H.
  destruct (String.eqb k key) eqn:E.
  - apply String.eqb_eq in E. subst. now left.
  - right. apply IH. destruct H as [H|H]; [|exact H].
    apply String.eqb_neq in E. congruence.
Qed.

Lemma get_defined (key : string) (o : list (string * JsValue)) :
  Obj.get key o <> JUndefined -> In key (Obj.keys o).
Proof.
  induction o as [|[k v] o IH]; simpl; [congruence|]. intros H.
  destruct (String.eqb k key) eqn:E.
  - apply String.eqb_eq in E. now left.
  - right. now apply IH.
Qed.

Lemma depth_element (x : JsValue) (elements : list JsValue) :
  In x elements -> depth x < depth (JArr elements).
Proof.
  cbn [depth]. induction elements as [|y l IH]; simpl; [tauto|].
  intros [->|H]; [lia|]. specialize (IH H). lia.
Qed.

Lemma depth_property (key : string) (v : JsValue) (properties : list (string * JsValue)) :
  In (key, v) properties -> depth v < depth (JObj properties).
Proof.
  cbn [depth]. induction properties as [|y l IH]; simpl; [tauto|].
  intros [->|H]; [simpl; lia|]. specialize (IH H). lia.
Qed.

Lemma mapOpt_same {A : Type} (f : A -> option A) (l : list A) :
  (forall x, In x l -> f x = Some x) -> mapOpt f l = Some l.
Proof.
  induction l as [|x l IH]; intros H; simpl; [reflexivity|].
  rewrite (H x) by now left. rewrite IH; [reflexivity|].
  intros y Hy. apply H. now right.
Qed.

Lemma foldOpt_same {A B : Type} (f : A -> B -> option A) (l : list B) (a : A) :
  (forall x, In x l -> f a x = Some a) -> foldOpt f l a = Some a.
Proof.
  unfold foldOpt. induction l as [|x l IH]; intros H; simpl; [reflexivity|].
  rewrite (H x) by now left. apply IH. intros y Hy. apply H. now right.
Qed.

(** A turn of the loop on a settled object changes nothing. *)
Lemma visitKey_settled (recur : JsValue -> option JsValue) (items : list ImportItemResult)
      (data : list (string * JsValue)) (key : string) :
  In key (Obj.keys data) ->
  (forall s, Obj.get key data = JStr s -> startsWith "<" s && endsWith ">" s = true ->
             settledText items s = true) ->
  (isIdKey key = true -> settledIdValue items (Obj.get "id" data) = true) ->
  (isObject (Obj.get key data) = true -> recur (Obj.get key data) = Some (Obj.get key data)) ->
  visitKey recur items data key = Some data.
Proof.
  intros Hkey Htext Hid Hrec. unfold visitKey.
  set (val := Obj.get key data) in *.
  assert (Hfirst :
            match val with
            | JStr s =>
                if startsWith "<" s && endsWith ">" s
                then Obj.set key (JStr (replaceIdsInRichText s items)) data
                else data
            | _ => data
            end = data).
  { destruct val eqn:Hval; try reflexivity.
    destruct (startsWith "<" s && endsWith ">" s) eqn:Hd; [|reflexivity].
    rewrite (RichText.replaceIdsInRichText_settled items s) by (apply Htext; [reflexivity | exact Hd]).
    rewrite <- Hval. now apply set_same. }
  rewrite Hfirst. clear Hfirst.
  assert (Hsecond :
            (if String.eqb (toLowerCase key) "id"
             then match tryFindNewIdOfValue (Obj.get "id" data) items with
                  | Some new => if truthyStr new then Obj.set "id" (JStr new) data else data
                  | None => data
                  end
             else data) = data).
  { fold (isIdKey key). destruct (isIdKey key); [|reflexivity].
    specialize (Hid eq_refl). unfold settledIdValue, tryFindNewIdOfValue in *.
    destruct (Obj.get "id" data) eqn:Hget; cbn [idOf] in *; try reflexivity.
    - unfold settledId in Hid. destruct (tryFindNewId None items) as [new|]; [|reflexivity].
      destruct (truthyStr new); [discriminate | reflexivity].
    - unfold settledId in Hid. destruct (tryFindNewId (Some s) items) as [new|]; [|reflexivity].
      destruct (truthyStr new); [|reflexivity]. simpl in Hid.
      apply String.eqb_eq in Hid. subst new. rewrite <- Hget. apply set_same.
      apply get_defined. congruence. }
  rewrite Hsecond. clear Hsecond.
  destruct (isObject val) eqn:Hobj; [|reflexivity].
  rewrite (Hrec eq_refl). unfold val. now rewrite set_same.
Qed.

(** *** Fuel above the depth of the tree is enough *)

Lemma depth_get (key : string) (o : list (string * JsValue)) :
  depth (Obj.get key o) <= deepest o.
Proof.
  unfold deepest. induction o as [|[k v] o IH]; cbn [Obj.get fold_right snd depth]; [lia|].
  destruct (String.eqb k key); lia.
Qed.

Lemma deepest_set (key : string) (v : JsValue) (o : list (string * JsValue)) :
  deepest (Obj.set key v o) <= Nat.max (deepest o) (depth v).
Proof.
  unfold deepest. induction o as [|[k x] o IH]; cbn [Obj.set fold_right snd]; [lia|].
  destruct (String.eqb k key); cbn [fold_right snd]; lia.
Qed.

Lemma visitKey_total (recur : JsValue -> option JsValue) (items : list ImportItemResult)
      (data : list (string * JsValue)) (key : string) (d : nat) :
  (forall v, depth v <= d -> exists v', recur v = Some v' /\ depth v' <= depth v) ->
  deepest data <= d ->
  exists data', visitKey recur items data key = Some data' /\ deepest data' <= d.
Proof.
  intros Hrec Hd. unfold visitKey.
  set (val := Obj.get key data).
  assert (Hval : depth val <= d) by (pose proof (depth_get key data); unfold val; lia).
  set (data1 := match val with
                | JStr s =>
                    if startsWith "<" s && endsWith ">" s
                    then Obj.set key (JStr (replaceIdsInRichText s items)) data
                    else data
                | _ => data
                end).
  assert (H1 : deepest data1 <= d).
  { unfold data1. destruct val; try exact Hd.
    destruct (startsWith "<" s && endsWith ">" s); [|exact Hd].
    pose proof (deepest_set key (JStr (replaceIdsInRichText s items)) data). simpl in *. lia. }
  set (data2 := if String.eqb (toLowerCase key) "id"
                then match tryFindNewIdOfValue (Obj.get "id" data1) items with
                     | Some new => if truthyStr new then Obj.set "id" (JStr new) data1 else data1
                     | None => data1
                     end
                else data1).
  assert (H2 : deepest data2 <= d).
  { unfold data2. destruct (String.eqb (toLowerCase key) "id"); [|exact H1].
    destruct (tryFindNewIdOfValue _ items) as [new|]; [|exact H1].
    destruct (truthyStr new); [|exact H1].
    pose proof (deepest_set "id" (JStr new) data1). simpl in *. lia. }
  destruct (isObject val); [|now exists data2].
  destruct (Hrec val Hval) as (val' & -> & Hval').
  eexists. split; [reflexivity|].
  pose proof (deepest_set key val' data2). lia.
Qed.

Lemma foldOpt_total (f : list (string * JsValue) -> string -> option (list (string * JsValue)))
      (keys : list string) (d : nat) :
  (forall data key, deepest data <= d -> exists data', f data key = Some data' /\ deepest data' <= d) ->
  forall data, deepest data <= d ->
               exists data', foldOpt f keys data = Some data' /\ deepest data' <= d.
Proof.
  intros Hf. unfold foldOpt. induction keys as [|key keys IH]; intros data Hd; simpl.
  - now exists data.
  - destruct (Hf data key Hd) as (data1 & -> & H1). now apply IH.
Qed.

Lemma mapOpt_total (f : JsValue -> option JsValue) (l : list JsValue) :
  (forall x, In x l -> exists y, f x = Some y /\ depth y <= depth x) ->
  exists l', mapOpt f l = Some l' /\ depth (JArr l') <= depth (JArr l).
Proof.
  induction l as [|x l IH]; intros H; simpl.
  - now exists [].
  - destruct (H x) as (y & -> & Hy); [now left|].
    destruct IH as (l' & -> & Hl'); [intros z Hz; apply H; now right|].
    exists (y :: l'). split; [reflexivity|]. simpl in *. lia.
Qed.

(** The walk ends, on every tree, and the tree it leaves is no deeper. *)
Lemma replaceIdReferencesWithNewId_total (items : list ImportItemResult) (fuel : nat) (data : JsValue) :
  depth data < fuel ->
  exists data', replaceIdReferencesWithNewId fuel data items = Some data' /\ depth data' <= depth data.
Proof.
  revert data. induction fuel as [|fuel IH]; intros data Hd; [lia|].
  cbn [replaceIdReferencesWithNewId].
  destruct data as [| |b|n|s|elements|properties];
    try (destruct (jsTruthy _); eexists; (split; [reflexivity | lia])).
  - cbn [jsTruthy].
    destruct (mapOpt_total (fun x => replaceIdReferencesWithNewId fuel x items) elements)
      as (l' & -> & Hl').
    + intros x Hx. apply IH. pose proof (depth_element x elements Hx). lia.
    + eexists. split; [reflexivity | exact Hl'].
  - cbn [jsTruthy].
    destruct (foldOpt_total
                (visitKey (fun val => replaceIdReferencesWithNewId fuel val items) items)
                (Obj.keys properties) (deepest properties)) with (data := properties)
      as (data' & -> & Hdata').
    + intros data key Hdata. apply visitKey_total; [|exact Hdata].
      intros v Hv. apply IH. cbn [depth] in Hd. fold (deepest properties) in Hd. lia.
    + lia.
    + eexists. split; [reflexivity|]. cbn [depth option_map]. fold (deepest data').
      fold (deepest properties). lia.
Qed.

(** C6, as amended: the rewrite changes nothing in a payload whose
    references are settled.  For a rich text: every codename marker has an
    empty codename, and the id of every marker of the four other kinds is
    empty or resolves to nothing, to an empty string or to itself.  For a
    tree: the rich texts it holds are so, every key equal to [id] but for
    case is spelled [id], and the value under it resolves to nothing, to an
    empty string or to itself. *)
Theorem settled_payload_is_unchanged (items : list ImportItemResult) :
  (forall text, settledText items text = true -> replaceIdsInRichText text items = text)
  /\ (forall fuel data,
         settledTree items data = true -> depth data < fuel ->
         replaceIdReferencesWithNewId fuel data items = Some data).
Proof.
  split; [apply RichText.replaceIdsInRichText_settled|].
  induction fuel as [|fuel IH]; intros data Hs Hd; [lia|].
  cbn [replaceIdReferencesWithNewId].
  destruct data as [| |b|n|s|elements|properties]; try (destruct (jsTruthy _); reflexivity).
  - cbn [jsTruthy]. rewrite mapOpt_same; [reflexivity|].
    intros x Hx. apply IH.
    + cbn [settledTree] in Hs. rewrite forallb_forall in Hs. now apply Hs.
    + pose proof (depth_element x elements Hx). lia.
  - cbn [jsTruthy]. rewrite foldOpt_same; [reflexivity|].
    intros key Hkey. cbn [settledTree] in Hs. apply andb_prop in Hs as [Hprops Hid].
    rewrite forallb_forall in Hprops.
    pose proof (get_in key properties Hkey) as Hin.
    specialize (Hprops _ Hin). cbn [snd] in Hprops.
    apply andb_prop in Hprops as [_ Hprops].
    apply visitKey_settled.
    + exact Hkey.
    + intros s Hget Hdelim. rewrite Hget in Hprops. now rewrite Hdelim in Hprops.
    + intros Hk.
      assert (He : existsb isIdKey (Obj.keys properties) = true)
        by (apply existsb_exists; exists key; split; assumption).
      now rewrite He in Hid.
    + intros Hobj. apply IH.
      * destruct (Obj.get key properties); try discriminate; exact Hprops.
      * pose proof (depth_property key _ properties Hin). lia.
Qed.

(** The element [hero] after its asset [a] was imported as [t1]. *)
Lemma settled_payload_is_unchanged_witness :
  replaceIdReferencesWithNewId 2 (Examples.element "t1") [Examples.entryForId "a" "t1"]
  = Some (Examples.element "t1").
Proof.
  apply (proj2 (settled_payload_is_unchanged [Examples.entryForId "a" "t1"])).
  - vm_compute. reflexivity.
  - vm_compute. lia.
Defined.

(** C6 as stated fails.  When an imported id is itself registered as an
    original id, the rewrite of a rewritten payload changes it again.  And
    the object [{ ID: "t1" }], whose one value resolves to nothing, gets a
    new property from the rewrite. *)
Lemma rewrite_is_not_idempotent :
  replaceIdsInRichText (Examples.image "a") Examples.chain = Examples.image "b"
  /\ replaceIdsInRichText (Examples.image "b") Examples.chain = Examples.image "c"
  /\ Examples.image "c" <> Examples.image "b"
  /\ replaceIdReferencesWithNewId 2 (Examples.element "a") Examples.chain = Some (Examples.element "b")
  /\ replaceIdReferencesWithNewId 2 (Examples.element "b") Examples.chain = Some (Examples.element "c")
  /\ Examples.element "c" <> Examples.element "b"
  /\ tryFindNewId (Some "t1") Examples.onlyCodenames = None
  /\ replaceIdReferencesWithNewId 2 (JObj [("ID", JStr "t1")]) Examples.onlyCodenames
     = Some (JObj [("ID", JStr "t1"); ("id", JStr "g")]).
Proof. repeat split; vm_compute; congruence. Qed.

(** C10 fails on [{ Id: "x" }]: the key is [id] but for case, the code
    reads and writes [data.id], and the object gets a new property [id]
    from the first entry of the ledger that has no original id. *)
Lemma upper_case_id_adds_a_property :
  replaceIdReferencesWithNewId 2 Examples.upperCaseId Examples.onlyCodenames
  = Some (JObj [("Id", JStr "x"); ("id", JStr "g")]).
Proof. vm_compute. reflexivity. Qed.

End TreeWalk.

(** ** The classification of workflow steps *)

Module Workflows.

Import Spec ImportService.

Lemma find_none_iff {A : Type} (p : A -> bool) (l : list A) :
  find p l = None <-> forall x, In x l -> p x = false.
Proof.
  induction l as [|x l IH]; simpl.
  - split; [intros _ y [] | reflexivity].
  - destruct (p x) eqn:E.
    + split; [discriminate|]. intros H. rewrite (H x) in E by now left. discriminate.
    + rewrite IH. split.
      * intros H y [<-|Hy]; [exact E | now apply H].
      * intros H y Hy. apply H. now right.
Qed.

Lemma find_existsb {A : Type} (p : A -> bool) (l : list A) :
  existsb p l = match find p l with Some _ => true | None => false end.
Proof. induction l as [|x l IH]; simpl; [reflexivity|]. destruct (p x); [reflexivity | exact IH]. Qed.

Section Classification.

Variable defaultWorkflowCodename : string.
Variable codename : string.

(** The loop of [getWorkflowForGivenStepByCodename] gives the first
    workflow that has the step codename. *)
Lemma getWorkflowForGivenStepByCodename_find (workflows : list Workflow) :
  getWorkflowForGivenStepByCodename defaultWorkflowCodename codename workflows
  = match find (hasStepCodename codename) workflows with
    | Some workflow => inr workflow
    | None =>
        match findDefaultWorkflow defaultWorkflowCodename workflows with
        | None => inl (Error "Missing default workflow")
        | Some defaultWorkflow => inr defaultWorkflow
        end
    end.
Proof.
  unfold getWorkflowForGivenStepByCodename.
  match goal with
  | |- match ?loop workflows with _ => _ end = _ =>
      assert (Hloop : forall l, loop l = find (hasStepCodename codename) l)
  end.
  { induction l as [|w l IH]; [reflexivity|].
    cbn [find]. unfold hasStepCodename at 1. rewrite find_existsb, <- IH.
    destruct (String.eqb (step_codename (wf_archivedStep w)) codename); [reflexivity|].
    destruct (String.eqb (step_codename (wf_publishedStep w)) codename); [reflexivity|].
    cbn [orb]. destruct (find _ (wf_steps w)); reflexivity. }
  now rewrite Hloop.
Qed.

Lemma find_firstWith {A : Type} (p : A -> bool) (l : list A) (w : A) :
  firstWith p l w -> find p l = Some w.
Proof.
  intros (pre & post & -> & Hw & Hpre). now apply TranslationTable.find_first.
Qed.

Lemma published_iff (workflows : list Workflow) :
  doesWorkflowStepCodenameRepresentPublishedStep codename workflows = true
  <-> exists w, In w workflows /\ step_codename (wf_publishedStep w) = codename.
Proof.
  induction workflows as [|x l IH]; simpl.
  - split; [discriminate | intros (w & [] & _)].
  - destruct (String.eqb (step_codename (wf_publishedStep x)) codename) eqn:E.
    + split; [|reflexivity]. intros _. exists x. split; [now left | now apply String.eqb_eq].
    + rewrite IH. split.
      * intros (w & Hw & Hc). exists w. split; [now right | exact Hc].
      * intros (w & [<-|Hw] & Hc); [|now exists w].
        apply String.eqb_neq in E. contradiction.
Qed.

Lemma archived_iff (workflows : list Workflow) :
  doesWorkflowStepCodenameRepresentArchivedStep codename workflows = true
  <-> exists w, In w workflows /\ step_codename (wf_archivedStep w) = codename.
Proof.
  induction workflows as [|x l IH]; simpl.
  - split; [discriminate | intros (w & [] & _)].
  - destruct (String.eqb (step_codename (wf_archivedStep x)) codename) eqn:E.
    + split; [|reflexivity]. intros _. exists x. split; [now left | now apply String.eqb_eq].
    + rewrite IH. split.
      * intros (w & Hw & Hc). exists w. split; [now right | exact Hc].
      * intros (w & [<-|Hw] & Hc); [|now exists w].
        apply String.eqb_neq in E. contradiction.
Qed.

(** C3: a step codename is a published (an archived) step when it is the
    published (archived) step of any workflow of the list; the workflow of
    a step codename is the first workflow of the list that has it as
    archived step, published step or among its steps; when no workflow has
    it, the first workflow whose codename is the default one but for case;
    and when there is none either, the error [Missing default workflow]. *)
Theorem classification_checks_every_workflow (workflows : list Workflow) :
  (doesWorkflowStepCodenameRepresentPublishedStep codename workflows = true
   <-> exists w, In w workflows /\ step_codename (wf_publishedStep w) = codename)
  /\ (doesWorkflowStepCodenameRepresentArchivedStep codename workflows = true
      <-> exists w, In w workflows /\ step_codename (wf_archivedStep w) = codename)
  /\ (forall w, firstWith (hasStepCodename codename) workflows w ->
                getWorkflowForGivenStepByCodename defaultWorkflowCodename codename workflows = inr w)
  /\ ((forall x, In x workflows -> hasStepCodename codename x = false) ->
      (forall d, firstWith (isDefaultWorkflow defaultWorkflowCodename) workflows d ->
                 getWorkflowForGivenStepByCodename defaultWorkflowCodename codename workflows = inr d)
      /\ ((forall x, In x workflows -> isDefaultWorkflow defaultWorkflowCodename x = false) ->
          getWorkflowForGivenStepByCodename defaultWorkflowCodename codename workflows
          = inl (Error "Missing default workflow"))).
Proof.
  split; [apply published_iff|]. split; [apply archived_iff|].
  rewrite getWorkflowForGivenStepByCodename_find. split.
  - intros w Hw. now rewrite (find_firstWith _ workflows w Hw).
  - intros Hnone.
    assert (E : find (hasStepCodename codename) workflows = None) by now apply find_none_iff.
    rewrite E. unfold findDefaultWorkflow. split.
    + intros d Hd. fold (isDefaultWorkflow defaultWorkflowCodename).
      now rewrite (find_firstWith _ workflows d Hd).
    + intros Hno.
      assert (E' : find (isDefaultWorkflow defaultWorkflowCodename) workflows = None)
        by now apply find_none_iff.
      unfold isDefaultWorkflow in E'. now rewrite E'.
Qed.

End Classification.

Section ById.

Variable defaultWorkflowCodename : string.
Variable id : string.

(** The workflow of a step id is the first workflow that has the id. *)
Lemma getWorkflowForGivenStepById_first (workflows : list Workflow) (w : Workflow) :
  firstWith (hasStepId id) workflows w ->
  getWorkflowForGivenStepById defaultWorkflowCodename id workflows = inr w.
Proof.
  intros Hw. unfold getWorkflowForGivenStepById.
  match goal with
  | |- match ?loop workflows with _ => _ end = _ =>
      assert (Hloop : forall l, loop l = find (hasStepId id) l)
  end.
  { induction l as [|x l IH]; [reflexivity|].
    cbn [find]. unfold hasStepId at 1. rewrite find_existsb, <- IH.
    destruct (String.eqb (step_id (wf_archivedStep x)) id); [reflexivity|].
    destruct (String.eqb (step_id (wf_publishedStep x)) id); [reflexivity|].
    cbn [orb]. destruct (find _ (wf_steps x)); reflexivity. }
  rewrite Hloop. now rewrite (find_firstWith _ workflows w Hw).
Qed.

End ById.

(** [retired] is the archived step of the second workflow. *)
Lemma classification_checks_every_workflow_witness :
  doesWorkflowStepCodenameRepresentArchivedStep "retired" Fixtures.workflows = true
  /\ getWorkflowForGivenStepByCodename "default" "retired" Fixtures.workflows = inr Fixtures.newsWorkflow
  /\ getWorkflowForGivenStepByCodename "default" "unknown" Fixtures.workflows
     = inr Fixtures.defaultWorkflow
  /\ getWorkflowForGivenStepByCodename "main" "unknown" Fixtures.workflows
     = inl (Error "Missing default workflow").
Proof.
  destruct (classification_checks_every_workflow "default" "retired" Fixtures.workflows)
    as (_ & Harchived & Hfirst & _).
  destruct (classification_checks_every_workflow "default" "unknown" Fixtures.workflows)
    as (_ & _ & _ & Hdefault).
  destruct (classification_checks_every_workflow "main" "unknown" Fixtures.workflows)
    as (_ & _ & _ & Hmissing).
  split; [|split; [|split]].
  - apply Harchived.
    exists Fixtures.newsWorkflow. split; [right; left; reflexivity | reflexivity].
  - apply Hfirst.
    exists [Fixtures.defaultWorkflow], []. split; [reflexivity|]. split; [reflexivity|].
    intros x [<-|[]]. reflexivity.
  - apply Hdefault.
    + intros x [<-|[<-|[]]]; reflexivity.
    + exists [], [Fixtures.newsWorkflow]. split; [reflexivity|]. split; [reflexivity|].
      intros x [].
  - apply Hmissing.
    + intros x [<-|[<-|[]]]; reflexivity.
    + intros x [<-|[<-|[]]]; reflexivity.
Defined.

End Workflows.

(** ** Runs of the service *)

Module Runs.

Import Spec ImportService.

Lemma bind_value {A B : Type} (m : M A) (k : A -> M B) (w w' : World) (a : A) :
  m w = (inr a, w') -> bind m k w = k a w'.
Proof. intros H. unfold bind. now rewrite H. Qed.

Lemma bind_thrown {A B : Type} (m : M A) (k : A -> M B) (w w' : World) (e : Thrown) :
  m w = (inl e, w') -> bind m k w = (inl e, w').
Proof. intros H. unfold bind. now rewrite H. Qed.

Lemma tryCatch_value {A : Type} (m : M A) (h : Thrown -> M A) (w w' : World) (a : A) :
  m w = (inr a, w') -> tryCatch m h w = (inr a, w').
Proof. intros H. unfold tryCatch. now rewrite H. Qed.

Lemma tryCatch_thrown {A : Type} (m : M A) (h : Thrown -> M A) (w w' : World) (e : Thrown) :
  m w = (inl e, w') -> tryCatch m h w = h e w'.
Proof. intros H. unfold tryCatch. now rewrite H. Qed.

(** Runs the steps of a computation that do not depend on an answer. *)
Ltac run :=
  cbv [bind tryCatch ret throw modify consoleLog processItem send orThrow get];
  cbn [fst snd requests console importedItems importedAssets preparedItems upsertedLanguageVariants
       withRequests withConsole withImportedItems withImportedAssets withPreparedItems
       withUpsertedLanguageVariants].

(** *** The asset stage *)

(** C5: for an asset that the lookup by external id finds in the target
    (the first of the two lookups finds it or answers 404, the second finds
    it), the service sends the two lookups and nothing else, no upload and
    no creation, and pushes two entries to the ledger of the stage, for the
    fetch and for the skip; the skip alone is logged. *)
Theorem existing_asset_is_fetched_and_skipped
        (client : Client) (asset : ImportAsset) (w : World) (existing : Asset) :
  let lookup := ViewAssetByExternalId (assetId asset) in
  (forall error, viewAsset client (requests w ++ [lookup]) = inl error -> isNotFound error = true) ->
  viewAsset client ((requests w ++ [lookup]) ++ [lookup]) = inr existing ->
  importAsset client asset w
  = (inr tt,
     mkWorld (requests w ++ [lookup; lookup])
             (console w ++ [LogProcessed (filename asset) ItemType.asset ActionType.skipUpdate])
             (importedItems w)
             (importedAssets w ++ [existingAssetEntry asset existing; existingAssetEntry asset existing])
             (preparedItems w) (upsertedLanguageVariants w)).
Proof.
  intros lookup Hfirst Hsecond.
  assert (Hview1 : exists found,
             viewExistingAsset client (assetId asset) None w
             = (inr found, withRequests w (requests w ++ [lookup]))).
  { unfold viewExistingAsset, tryCatch, bind, send. fold lookup.
    destruct (viewAsset client (requests w ++ [lookup])) as [error|a] eqn:E.
    - rewrite (Hfirst error eq_refl). simpl. now exists None.
    - now exists (Some a). }
  destruct Hview1 as [found Hview1].
  assert (Hview2 :
            viewExistingAsset client (assetId asset) found (withRequests w (requests w ++ [lookup]))
            = (inr (Some existing),
               withRequests w ((requests w ++ [lookup]) ++ [lookup]))).
  { unfold viewExistingAsset, tryCatch, bind, send. fold lookup. cbn [requests withRequests].
    rewrite Hsecond. reflexivity. }
  unfold importAsset.
  rewrite (bind_value _ _ _ _ _ Hview1). rewrite (bind_value _ _ _ _ _ Hview2).
  unfold existingAssetEntry. run. rewrite <- !app_assoc. reflexivity.
Qed.

(** The target has an asset for the external id [a1] of the picture. *)
Lemma existing_asset_is_fetched_and_skipped_witness :
  requests (snd (importAsset Fixtures.everyAssetExists Fixtures.picture newWorld))
  = [ViewAssetByExternalId "a1"; ViewAssetByExternalId "a1"]
  /\ importedAssets (snd (importAsset Fixtures.everyAssetExists Fixtures.picture newWorld))
     = [existingAssetEntry Fixtures.picture (mkAsset "target-asset" None);
        existingAssetEntry Fixtures.picture (mkAsset "target-asset" None)].
Proof.
  rewrite (existing_asset_is_fetched_and_skipped
             Fixtures.everyAssetExists Fixtures.picture newWorld (mkAsset "target-asset" None)).
  - split; reflexivity.
  - intros error H. discriminate H.
  - reflexivity.
Defined.

(** *** The content item stage *)

(** The comparison of the collections is between the codename of the
    source and the collection found by that very codename: the outcome
    depends on the names alone. *)
Lemma shouldUpdateContentItem_compares_names (importContentItem : ParsedContentItem)
      (item : ContentItem) (collections : list Collection) (b : bool) :
  shouldUpdateContentItem importContentItem item collections = inr b ->
  b = negb (String.eqb (name importContentItem) (ci_name item)).
Proof.
  unfold shouldUpdateContentItem.
  destruct (find _ collections) as [c|] eqn:E; [|discriminate].
  apply find_some in E as [_ E]. rewrite String.eqb_sym in E. rewrite E.
  intros H. inversion H. simpl. now rewrite orb_false_r.
Qed.

(** C7 fails: the target has [home] in the collection [default], the
    source has it under the same name in the collection [marketing], and
    the service sends the lookup alone and records a skip. *)
Lemma moved_item_is_not_upserted :
  ci_collection Fixtures.home = mkReference (Some "col-1") None
  /\ collection (Fixtures.homeOf "marketing") = "marketing"
  /\ shouldUpdateContentItem (Fixtures.homeOf "marketing") Fixtures.home Fixtures.collections
     = inr false
  /\ requests (snd (processContentItem Fixtures.homeExists Fixtures.collections
                                       (Fixtures.homeOf "marketing") newWorld))
     = [ViewContentItem "home"]
  /\ console (snd (processContentItem Fixtures.homeExists Fixtures.collections
                                      (Fixtures.homeOf "marketing") newWorld))
     = [LogProcessed "Home" ItemType.contentItem ActionType.skipUpdate].
Proof. repeat split. Qed.

(** *** The ledger only grows *)

Lemma extends_refl (w : World) : extends w w.
Proof. exists []. now rewrite app_nil_r. Qed.

Lemma extends_same (w w' : World) : importedItems w' = importedItems w -> extends w w'.
Proof. intros H. exists []. now rewrite H, app_nil_r. Qed.

Lemma extends_trans (w1 w2 w3 : World) : extends w1 w2 -> extends w2 w3 -> extends w1 w3.
Proof.
  intros [l1 H1] [l2 H2]. exists (l1 ++ l2). now rewrite H2, H1, app_assoc.
Qed.

Lemma growing_ret {A : Type} (a : A) : growing (ret a).
Proof. intros w r w' H. inversion H. apply extends_refl. Qed.

Lemma growing_throw {A : Type} (e : Thrown) : growing (@throw A e).
Proof. intros w r w' H. inversion H. apply extends_refl. Qed.

Lemma growing_get : growing get.
Proof. intros w r w' H. inversion H. apply extends_refl. Qed.

Lemma growing_bind {A B : Type} (m : M A) (k : A -> M B) :
  growing m -> (forall a, growing (k a)) -> growing (bind m k).
Proof.
  intros Hm Hk w r w' H. unfold bind in H.
  destruct (m w) as [[e|a] w1] eqn:E.
  - inversion H; subst. exact (Hm _ _ _ E).
  - exact (extends_trans _ _ _ (Hm _ _ _ E) (Hk a _ _ _ H)).
Qed.

Lemma growing_tryCatch {A : Type} (m : M A) (h : Thrown -> M A) :
  growing m -> (forall e, growing (h e)) -> growing (tryCatch m h).
Proof.
  intros Hm Hh w r w' H. unfold tryCatch in H.
  destruct (m w) as [[e|a] w1] eqn:E.
  - exact (extends_trans _ _ _ (Hm _ _ _ E) (Hh e _ _ _ H)).
  - inversion H; subst. exact (Hm _ _ _ E).
Qed.

Lemma growing_send {A : Type} (answer : list Request -> Thrown + A) (r : Request) :
  growing (send answer r).
Proof. intros w x w' H. inversion H. now apply extends_same. Qed.

Lemma growing_consoleLog (line : LogLine) : growing (consoleLog line).
Proof. intros w x w' H. inversion H. now apply extends_same. Qed.

Lemma growing_orThrow {A : Type} (r : Thrown + A) : growing (orThrow r).
Proof. destruct r; [apply growing_throw | apply growing_ret]. Qed.

Lemma growing_modify (f : World -> World) :
  (forall w, importedItems (f w) = importedItems w) -> growing (modify f).
Proof.
  intros Hf w x w' H. inversion H. apply extends_same. apply Hf.
Qed.

Lemma growing_processItem (ledger : Ledger) (actionType : ActionType.t) (itemType : ItemType.t)
      (data : ProcessData) :
  growing (processItem ledger actionType itemType data).
Proof.
  intros w x w' H.
  destruct ledger, actionType; inversion H; subst;
    first [ now apply extends_same | now eexists ].
Qed.

(** Takes a computation apart along its binds, handlers and tests. *)
Ltac growing :=
  repeat first
         [ apply growing_ret | apply growing_throw | apply growing_get
         | apply growing_send | apply growing_consoleLog | apply growing_orThrow
         | apply growing_processItem
         | apply growing_modify; intros ?; reflexivity
         | apply growing_bind; [|intros ?]
         | apply growing_tryCatch; [|intros ?]
         | match goal with
           | |- growing (if ?b then _ else _) => destruct b
           | |- growing (match ?x with _ => _ end) => destruct x
           end ].

Lemma growing_prepareContentItemForImportAsync (client : Client) (item : ParsedContentItem) :
  growing (prepareContentItemForImportAsync client item).
Proof. unfold prepareContentItemForImportAsync. growing. Qed.

Lemma growing_prepareLanguageVariantForImportAsync (client : Client)
      (defaultWorkflowCodename : string) (item : ParsedContentItem) (workflows : list Workflow) :
  growing (prepareLanguageVariantForImportAsync client defaultWorkflowCodename item workflows).
Proof. unfold prepareLanguageVariantForImportAsync. growing. Qed.

Lemma growing_processContentItem (client : Client) (collections : list Collection)
      (item : ParsedContentItem) :
  growing (processContentItem client collections item).
Proof.
  unfold processContentItem.
  destruct (negb (hasWorkflowStep item)); [apply growing_ret|].
  apply growing_bind; [apply growing_prepareContentItemForImportAsync | intros prepared].
  growing.
Qed.

Lemma growing_processLanguageVariant (client : Client) (defaultWorkflowCodename : string)
      (transformToImportValue : JsValue -> string -> string -> list ImportItemResult ->
                                list ParsedContentItem -> Thrown + option JsValue)
      (importContentItems : list ParsedContentItem) (workflows : list Workflow)
      (item : ParsedContentItem) :
  growing (processLanguageVariant client defaultWorkflowCodename transformToImportValue
                                  importContentItems workflows item).
Proof.
  unfold processLanguageVariant.
  destruct (negb (hasWorkflowStep item)); [apply growing_ret|].
  apply growing_bind; [apply growing_get | intros w0].
  destruct (find _ (preparedItems w0)) as [prepared|]; [|apply growing_throw].
  apply growing_bind;
    [apply growing_prepareLanguageVariantForImportAsync | intros _].
  growing.
Qed.

(** *** Items that fail *)

Section FailedItems.

Variable client : Client.
Variable config : ImportConfig.
Variable defaultWorkflowCodename : string.
Variable transformToImportValue :
  JsValue -> string -> string -> list ImportItemResult -> list ParsedContentItem ->
  Thrown + option JsValue.

(** C8, as amended.  When the [try] block of an item throws, in the first
    or in the second loop, the entries that the block pushed to the ledger
    before it threw are there, after all the entries that were there
    before.  With [skipFailedItems], the exception is swallowed: a line is
    logged, nothing is pushed or removed, and the loop goes on.  Without
    it, the exception is thrown again and ends the loop. *)
Theorem failed_item_is_skipped_or_ends_the_loop
        (importContentItems rest : list ParsedContentItem) (workflows : list Workflow)
        (collections : list Collection) (item : ParsedContentItem) (w w1 : World) (e : Thrown) :
  let first := fun i => tryCatch (processContentItem client collections i)
                                 (onFailedContentItem config i) in
  let second := fun i => tryCatch (processLanguageVariant client defaultWorkflowCodename
                                                          transformToImportValue
                                                          importContentItems workflows i)
                                  (onFailedLanguageVariant config i) in
  (processContentItem client collections item w = (inl e, w1) ->
   extends w w1
   /\ if skipFailedItems config
      then first item w
           = (inr tt, withConsole w1 (console w1 ++ [LogFailedItem (codename item) (errorMessageOf e)]))
           /\ forEach (item :: rest) first w
              = forEach rest first
                        (withConsole w1 (console w1 ++ [LogFailedItem (codename item) (errorMessageOf e)]))
      else forEach (item :: rest) first w = (inl e, w1))
  /\ (processLanguageVariant client defaultWorkflowCodename transformToImportValue
                             importContentItems workflows item w = (inl e, w1) ->
      extends w w1
      /\ if skipFailedItems config
         then second item w
              = (inr tt, withConsole w1 (console w1 ++ [LogFailedVariant (codename item) (language item)
                                                                           (errorMessageOf e)]))
              /\ forEach (item :: rest) second w
                 = forEach rest second
                           (withConsole w1 (console w1 ++ [LogFailedVariant (codename item) (language item)
                                                                              (errorMessageOf e)]))
         else forEach (item :: rest) second w = (inl e, w1)).
Proof.
  intros first second. split; intros H.
  - split; [exact (growing_processContentItem _ _ _ _ _ _ H)|].
    assert (Hfirst : first item w = onFailedContentItem config item e w1)
      by (unfold first; now apply tryCatch_thrown).
    unfold onFailedContentItem in Hfirst.
    destruct (skipFailedItems config).
    + split; [exact Hfirst|]. cbn [forEach]. now rewrite (bind_value _ _ _ _ _ Hfirst).
    + cbn [forEach]. now rewrite (bind_thrown _ _ _ _ _ Hfirst).
  - split; [exact (growing_processLanguageVariant _ _ _ _ _ _ _ _ _ H)|].
    assert (Hsecond : second item w = onFailedLanguageVariant config item e w1)
      by (unfold second; now apply tryCatch_thrown).
    unfold onFailedLanguageVariant in Hsecond.
    destruct (skipFailedItems config).
    + split; [exact Hsecond|]. cbn [forEach]. now rewrite (bind_value _ _ _ _ _ Hsecond).
    + cbn [forEach]. now rewrite (bind_thrown _ _ _ _ _ Hsecond).
Qed.

End FailedItems.

(** The item [home] is found in the target, and its collection is not
    valid there: the entry of the fetch is in the ledger when the first
    loop swallows the exception. *)
Lemma failed_item_is_skipped_or_ends_the_loop_witness :
  exists w1,
    tryCatch (processContentItem Fixtures.homeExistsNoCollection [] (Fixtures.homeOf "marketing"))
             (onFailedContentItem (Fixtures.config true) (Fixtures.homeOf "marketing")) newWorld
    = (inr tt, withConsole w1 (console w1 ++ [LogFailedItem "home" (Message "Invalid collection 'marketing'")]))
    /\ extends newWorld w1.
Proof.
  eexists.
  pose proof (failed_item_is_skipped_or_ends_the_loop
                Fixtures.homeExistsNoCollection (Fixtures.config true) "default" Fixtures.noContract
                [] [] [] [] (Fixtures.homeOf "marketing") newWorld) as H.
  cbv zeta in H. edestruct H as [[Hext [Hskip _]] _]; [reflexivity|].
  split; [exact Hskip | exact Hext].
Defined.

(** C8 as stated fails: with [skipFailedItems], the item throws in the
    first loop (its collection is not valid) and in the second (the lookup
    of its language variant fails), and the ledger that the import returns
    has the entry of its fetch. *)
Lemma skipped_item_is_in_the_ledger :
  runImport Fixtures.homeExistsNoCollection (Fixtures.config true) "default" Fixtures.noContract
            Fixtures.onlyHome
  = inr [mkResult (OfContentItem Fixtures.home) (OfContentItem Fixtures.home)
                  (Some "item-1") None (Some "home")]
  /\ console (snd (importAsync Fixtures.homeExistsNoCollection (Fixtures.config true) "default"
                               Fixtures.noContract Fixtures.onlyHome newWorld))
     = [Log "Project 'project'"; Log "Environment 'production'";
        Log "There are no assets to import"; Log "Importing content items";
        LogFailedItem "home" (Message "Invalid collection 'marketing'");
        LogFailedVariant "home" "en" (Message "no answer");
        Log "Finished import"].
Proof. split; vm_compute; reflexivity. Qed.

(** *** The workflow of a language variant *)

Section Reconciliation.

Variable client : Client.
Variable defaultWorkflowCodename : string.
Variable transformToImportValue :
  JsValue -> string -> string -> list ImportItemResult -> list ParsedContentItem ->
  Thrown + option JsValue.

(** C1: take an item that the first loop prepared, whose step in the
    source is a published step, and whose language variant exists in the
    target at a step with a non-empty id that is an archived step and no
    published step; let [workflow] be the workflow of that id, the first
    that has it, and [firstStep] the first of its steps.  When the
    requests succeed and the elements translate, the second loop sends, for
    the item: the lookup of the variant, the change to [firstStep], the
    upsert of the variant and the publication.  The workflow operations
    among them are the change of step, then the publication. *)
Theorem archived_variant_is_unarchived_then_published
        (importContentItems : list ParsedContentItem) (workflows : list Workflow)
        (item : ParsedContentItem) (w : World) (step : string) (prepared : ContentItem)
        (variant : LanguageVariant) (id : string) (workflow : Workflow) (firstStep : WorkflowStep)
        (contracts : list JsValue) (upserted : LanguageVariant) :
  let view := ViewLanguageVariant (codename item) (language item) in
  let unarchive :=
    ChangeWorkflowStepOfLanguageVariant (codename item) (language item) (step_codename firstStep) in
  let upsert := UpsertLanguageVariant (ci_codename prepared) (language item) contracts in
  let publish := PublishLanguageVariant (codename item) (language item) in
  let pushed := mkResult (OfLanguageVariant variant) (OfParsedItem item) None None None in
  find (fun m => String.eqb (ci_codename m) (codename item)) (preparedItems w) = Some prepared ->
  workflow_step item = Some step -> step <> "" ->
  doesWorkflowStepCodenameRepresentPublishedStep step workflows = true ->
  viewLanguageVariant client (requests w ++ [view]) = inr variant ->
  ref_id (lv_workflowStep variant) = Some id -> id <> "" ->
  isLanguageVariantPublished variant workflows = false ->
  isLanguageVariantArchived variant workflows = true ->
  firstWith (hasStepId id) workflows workflow ->
  nth_error (wf_steps workflow) 0 = Some firstStep ->
  changeWorkflowStepOfLanguageVariant client ((requests w ++ [view]) ++ [unarchive]) = inr tt ->
  elementContracts transformToImportValue importContentItems (elements item)
                   ((importedItems w ++ [pushed]) ++ [pushed]) = inr contracts ->
  upsertLanguageVariant client (((requests w ++ [view]) ++ [unarchive]) ++ [upsert]) = inr upserted ->
  publishLanguageVariant client ((((requests w ++ [view]) ++ [unarchive]) ++ [upsert]) ++ [publish])
  = inr tt ->
  exists w',
    processLanguageVariant client defaultWorkflowCodename transformToImportValue
                           importContentItems workflows item w = (inr tt, w')
    /\ requests w' = requests w ++ [view; unarchive; upsert; publish]
    /\ filter isWorkflowOperation [view; unarchive; upsert; publish] = [unarchive; publish].
Proof.
  intros view unarchive upsert publish pushed
         Hprepared Hstep Hstep' Hdesired Hview Hid Hid' Hpublished Harchived Hworkflow Hfirst
         Hunarchive Hcontracts Hupsert Hpublish.
  assert (Tstep : Js.truthyStr step = true) by (destruct step; [congruence | reflexivity]).
  assert (Tid : Js.truthyStr id = true) by (destruct id; [congruence | reflexivity]).
  assert (Hprepare :
            prepareLanguageVariantForImportAsync client defaultWorkflowCodename item workflows w
            = (inr tt,
               mkWorld ((requests w ++ [view]) ++ [unarchive])
                       (console w ++ [LogProcessed (name item +++ " | " +++ step_codename firstStep
                                                         +++ " | " +++ language item)
                                                   ItemType.languageVariant ActionType.unArchive])
                       ((importedItems w ++ [pushed]) ++ [pushed])
                       (importedAssets w) (preparedItems w) (upsertedLanguageVariants w))).
  { unfold prepareLanguageVariantForImportAsync. run. fold view. rewrite Hview.
    rewrite Hpublished, Harchived, Hid, Tid.
    rewrite (Workflows.getWorkflowForGivenStepById_first
               defaultWorkflowCodename id workflows workflow Hworkflow).
    rewrite Hfirst. run. fold unarchive. rewrite Hunarchive. reflexivity. }
  eexists. split; [|split].
  - unfold processLanguageVariant, hasWorkflowStep. rewrite Hstep. cbn [Js.truthy]. rewrite Tstep.
    cbn [negb]. unfold get at 1. unfold bind at 1. rewrite Hprepared.
    rewrite (bind_value _ _ _ _ _ Hprepare).
    run. rewrite Hcontracts. run. fold upsert. rewrite Hupsert. run.
    rewrite Hdesired. run.
    fold publish. rewrite Hpublish. reflexivity.
  - cbn [requests]. rewrite <- !app_assoc. reflexivity.
  - reflexivity.
Qed.

(** The theorem asks for a first step.  When the workflow of the archived
    variant has no step, [workflow.steps[0]] is [undefined]: the
    preparation throws a [TypeError] after the lookup, and sends no
    workflow operation. *)
Lemma archived_variant_without_steps_throws
      (workflows : list Workflow) (item : ParsedContentItem) (w : World)
      (variant : LanguageVariant) (id : string) (workflow : Workflow) :
  let view := ViewLanguageVariant (codename item) (language item) in
  viewLanguageVariant client (requests w ++ [view]) = inr variant ->
  ref_id (lv_workflowStep variant) = Some id -> id <> "" ->
  isLanguageVariantPublished variant workflows = false ->
  isLanguageVariantArchived variant workflows = true ->
  firstWith (hasStepId id) workflows workflow ->
  wf_steps workflow = [] ->
  exists w',
    prepareLanguageVariantForImportAsync client defaultWorkflowCodename item workflows w
    = (inl (TypeError "Cannot read properties of undefined (reading 'codename')"), w')
    /\ requests w' = requests w ++ [view].
Proof.
  intros view Hview Hid Hid' Hpublished Harchived Hworkflow Hsteps.
  assert (Tid : Js.truthyStr id = true) by (destruct id; [congruence | reflexivity]).
  eexists. split.
  - unfold prepareLanguageVariantForImportAsync. run. fold view. rewrite Hview.
    rewrite Hpublished, Harchived, Hid, Tid.
    rewrite (Workflows.getWorkflowForGivenStepById_first
               defaultWorkflowCodename id workflows workflow Hworkflow).
    rewrite Hsteps. reflexivity.
  - reflexivity.
Qed.

End Reconciliation.

(** The variant of [home] is at the archived step of the workflow [news],
    whose first step is [written]. *)
Lemma archived_variant_is_unarchived_then_published_witness :
  exists w',
    processLanguageVariant Fixtures.homeArchived "default" Fixtures.textContract
                           [Fixtures.homeLive] Fixtures.workflows
                           Fixtures.homeLive Fixtures.homePrepared = (inr tt, w')
    /\ requests w'
       = [ViewLanguageVariant "home" "en";
          ChangeWorkflowStepOfLanguageVariant "home" "en" "written";
          UpsertLanguageVariant "home" "en" [JStr "Home"];
          PublishLanguageVariant "home" "en"]
    /\ filter isWorkflowOperation
              [ViewLanguageVariant "home" "en";
               ChangeWorkflowStepOfLanguageVariant "home" "en" "written";
               UpsertLanguageVariant "home" "en" [JStr "Home"];
               PublishLanguageVariant "home" "en"]
       = [ChangeWorkflowStepOfLanguageVariant "home" "en" "written";
          PublishLanguageVariant "home" "en"].
Proof.
  apply (archived_variant_is_unarchived_then_published
           Fixtures.homeArchived "default" Fixtures.textContract
           [Fixtures.homeLive] Fixtures.workflows Fixtures.homeLive Fixtures.homePrepared
           "live" Fixtures.home Fixtures.archivedVariant "n4" Fixtures.newsWorkflow
           (mkStep "n1" "written") [JStr "Home"]
           (mkVariant (mkReference None None) (mkReference None None) (mkReference None None)));
    try reflexivity; try discriminate.
  exists [Fixtures.defaultWorkflow], []. split; [reflexivity|]. split; [reflexivity|].
  intros x [<-|[]]. reflexivity.
Defined.

(** *** Errors that leave a stage *)

Section Abort.

Variable client : Client.
Variable config : ImportConfig.
Variable defaultWorkflowCodename : string.
Variable transformToImportValue :
  JsValue -> string -> string -> list ImportItemResult -> list ParsedContentItem ->
  Thrown + option JsValue.

(** C4, as amended.  When an error leaves the stages, [importAsync] logs
    it and throws: the report that [handleError] builds for an error of the
    management API, the error itself otherwise.  The promise is rejected
    and the caller gets no ledger, whatever was pushed before the error.
    The ledger is what the caller gets when the stages end without error. *)
Theorem error_in_a_stage_rejects_the_import
        (sourceData filtered : ImportSource) (w w1 : World) :
  beforeStages client config sourceData w = (inr filtered, w1) ->
  (forall error w2,
      importStages client config defaultWorkflowCodename transformToImportValue filtered w1
      = (inl error, w2) ->
      importAsync client config defaultWorkflowCodename transformToImportValue sourceData w
      = (inl (GlobalHelper.errorResult error), withConsole w2 (console w2 ++ [LogThrown error])))
  /\ (forall w2,
         importStages client config defaultWorkflowCodename transformToImportValue filtered w1
         = (inr tt, w2) ->
         importAsync client config defaultWorkflowCodename transformToImportValue sourceData w
         = (inr (importedItems w2), w2)).
Proof.
  intros Hbefore. split.
  - intros error w2 Hstages. unfold importAsync.
    rewrite (bind_value _ _ _ _ _ Hbefore).
    assert (H : tryCatch (importStages client config defaultWorkflowCodename transformToImportValue
                                       filtered) handleImportError w1
                = (inl (GlobalHelper.errorResult error),
                   withConsole w2 (console w2 ++ [LogThrown error])))
      by (rewrite (tryCatch_thrown _ _ _ _ _ Hstages); reflexivity).
    now rewrite (bind_thrown _ _ _ _ _ H).
  - intros w2 Hstages. unfold importAsync.
    rewrite (bind_value _ _ _ _ _ Hbefore).
    rewrite (bind_value _ _ _ _ _ (tryCatch_value _ handleImportError _ _ _ Hstages)).
    reflexivity.
Qed.

End Abort.

(** The lookup of the second asset fails with a server error. *)
Lemma error_in_a_stage_rejects_the_import_witness :
  runImport Fixtures.secondLookupFails (Fixtures.config false) "default" Fixtures.noContract
            Fixtures.twoAssets
  = inl (ErrorReport "Failed to import data with error: Server error" 0 "request-1" "").
Proof.
  unfold runImport.
  destruct (error_in_a_stage_rejects_the_import
              Fixtures.secondLookupFails (Fixtures.config false) "default" Fixtures.noContract
              Fixtures.twoAssets Fixtures.twoAssets newWorld
              (snd (beforeStages Fixtures.secondLookupFails (Fixtures.config false)
                                 Fixtures.twoAssets newWorld))
              eq_refl) as [Hthrown _].
  rewrite (Hthrown Fixtures.serverError
                   (snd (importStages Fixtures.secondLookupFails (Fixtures.config false) "default"
                                      Fixtures.noContract Fixtures.twoAssets
                                      (snd (beforeStages Fixtures.secondLookupFails
                                                         (Fixtures.config false)
                                                         Fixtures.twoAssets newWorld))))
                   eq_refl).
  reflexivity.
Defined.

(** C4 as stated fails: the first asset is found and two entries are
    pushed for it, the lookup of the second asset fails, and the import is
    rejected: the caller gets the report of the error and no ledger. *)
Lemma partial_ledger_is_not_returned :
  importedAssets (snd (importAsync Fixtures.secondLookupFails (Fixtures.config false) "default"
                                   Fixtures.noContract Fixtures.twoAssets newWorld))
  = [existingAssetEntry Fixtures.picture (mkAsset "target-asset" None);
     existingAssetEntry Fixtures.picture (mkAsset "target-asset" None)]
  /\ forall ledger,
      runImport Fixtures.secondLookupFails (Fixtures.config false) "default" Fixtures.noContract
                Fixtures.twoAssets
      <> inr ledger.
Proof. split; [vm_compute; reflexivity | intros ledger; vm_compute; discriminate]. Qed.

End Runs.

(** * More properties *)

(** ** The pure functions of global-helper.ts *)

Module HelpersFacts.

Import Helpers JsFacts.

Lemma split_cons (c : ascii) (s : string) :
  exists segment segments, split c s = segment :: segments.
Proof.
  induction s as [|x s IH]; simpl; [now exists "", []|].
  destruct (Ascii.eqb x c); [now eexists _, _|].
  destruct IH as (segment & segments & ->). now eexists _, _.
Qed.

Lemma join_cons (sep s : string) (l : list string) :
  l <> [] -> GlobalHelper.join sep (s :: l) = s +++ sep +++ GlobalHelper.join sep l.
Proof. destruct l; [congruence | reflexivity]. Qed.

(** Splitting and joining on the same character gives the text back. *)
Lemma join_split (c : ascii) (s : string) :
  GlobalHelper.join (String c "") (split c s) = s.
Proof.
  induction s as [|x s IH]; [reflexivity|]. cbn [split].
  destruct (split_cons c s) as (segment & segments & E). rewrite E in *.
  destruct (Ascii.eqb x c) eqn:Ex.
  - apply Ascii.eqb_eq in Ex. subst x. rewrite join_cons by discriminate.
    rewrite IH. reflexivity.
  - destruct segments as [|s2 segments].
    + simpl in *. now rewrite IH.
    + rewrite join_cons by discriminate. rewrite join_cons in IH by discriminate.
      cbn [String.append]. f_equal. exact IH.
Qed.

Lemma split_segments (c : ascii) (s : string) :
  Forall (fun segment => includes c segment = false) (split c s).
Proof.
  induction s as [|x s IH]; cbn [split]; [repeat constructor|].
  destruct (split_cons c s) as (segment & segments & E). rewrite E in *.
  inversion IH; subst.
  destruct (Ascii.eqb x c) eqn:Ex.
  - constructor; [reflexivity|]. now constructor.
  - constructor; [|assumption]. simpl. now rewrite Ex.
Qed.

Lemma split_several (c : ascii) (s : string) :
  includes c s = true -> exists segment s2 segments, split c s = segment :: s2 :: segments.
Proof.
  induction s as [|x s IH]; simpl; [discriminate|].
  destruct (split_cons c s) as (segment & segments & E).
  destruct (Ascii.eqb x c); simpl; intros H.
  - rewrite E. now eexists _, _, _.
  - destruct (IH H) as (s1 & s2 & l & ->). now eexists _, _, _.
Qed.

Lemma join_snoc (sep : string) (init : list string) (z : string) :
  init <> [] ->
  GlobalHelper.join sep (init ++ [z]) = GlobalHelper.join sep init +++ sep +++ z.
Proof.
  induction init as [|a init IH]; [congruence|]. intros _.
  destruct init as [|b init]; [reflexivity|].
  cbn [app]. rewrite (join_cons sep a (b :: init ++ [z])) by discriminate.
  cbn [app] in IH. rewrite IH by discriminate.
  rewrite (join_cons sep a (b :: init)) by discriminate.
  now rewrite !append_assoc.
Qed.

(** X1: [getFilenameWithoutExtension] throws on the empty name, gives a
    name without a dot back, and cuts a name with dots before its last dot:
    the name is the result, a dot, and an extension without a dot. *)
Theorem getFilenameWithoutExtension_cuts_at_the_last_dot (filename : string) :
  (filename = "" -> getFilenameWithoutExtension filename = inl (Error "Invalid filename"))
  /\ (filename <> "" -> includes "." filename = false ->
      getFilenameWithoutExtension filename = inr filename)
  /\ (includes "." filename = true ->
      exists base extension,
        getFilenameWithoutExtension filename = inr base
        /\ filename = base +++ "." +++ extension
        /\ includes "." extension = false).
Proof.
  split; [intros ->; reflexivity|]. split.
  - intros Hne Hdot. unfold getFilenameWithoutExtension.
    destruct filename; [congruence|]. cbn [Js.truthyStr negb]. now rewrite Hdot.
  - intros Hdot. unfold getFilenameWithoutExtension.
    destruct filename as [|x s]; [discriminate|]. cbn [Js.truthyStr negb]. rewrite Hdot.
    cbn [negb].
    destruct (split_several _ _ Hdot) as (s1 & s2 & l & E).
    destruct (@exists_last _ (s1 :: s2 :: l)) as (init & z & Ez); [discriminate|].
    assert (Hinit : init <> []) by (destruct init; [discriminate | discriminate]).
    exists (GlobalHelper.join "." init), z.
    rewrite E, Ez, removelast_last. split; [reflexivity|]. split.
    + rewrite <- (join_split "." (String x s)) at 1. rewrite E, Ez.
      now apply join_snoc.
    + pose proof (split_segments "." (String x s)) as Hall. rewrite Forall_forall in Hall.
      apply Hall. rewrite E, Ez. apply in_or_app. right. now left.
Qed.

Lemma getFilenameWithoutExtension_cuts_at_the_last_dot_witness :
  exists base extension,
    getFilenameWithoutExtension "archive.tar.gz" = inr base
    /\ "archive.tar.gz" = base +++ "." +++ extension
    /\ includes "." extension = false.
Proof.
  apply (getFilenameWithoutExtension_cuts_at_the_last_dot "archive.tar.gz"). reflexivity.
Defined.

Lemma toInt32_small (z : Z) : (0 <= z < 2147483648)%Z -> toInt32 z = z.
Proof.
  intros H. unfold toInt32. rewrite Z.mod_small by lia. lia.
Qed.

Lemma and32_low_bits (h : Z) : (0 <= and32 2097151 h < 2097152)%Z.
Proof.
  unfold and32. rewrite (toInt32_small 2097151) by lia.
  change 2097151%Z with (Z.ones 21). rewrite Z.land_comm, Z.land_ones by lia.
  assert (H : (0 <= toInt32 h mod 2 ^ 21 < 2 ^ 21)%Z) by (apply Z.mod_pos_bound; lia).
  change (2 ^ 21)%Z with 2097152%Z in *.
  rewrite toInt32_small by lia. exact H.
Qed.

Lemma ushr_word (h : Z) : (0 <= ushr h 0 < 4294967296)%Z.
Proof.
  unfold ushr, toUint32. rewrite Z.shiftr_0_r. apply Z.mod_pos_bound. lia.
Qed.

(** X2: the hash of any string is an integer from 0 to 2^53 - 1: its low
    32 bits are a word, and 21 bits come above them. *)
Theorem getHashCode_is_below_2_53 (str : string) :
  (0 <= getHashCode str < 9007199254740992)%Z.
Proof.
  unfold getHashCode. destruct (hashLoop str _) as [h1 h2]. cbv zeta.
  match goal with
  | |- (_ <= 4294967296 * and32 2097151 ?a + ushr ?b 0 < _)%Z =>
      pose proof (and32_low_bits a); pose proof (ushr_word b)
  end.
  lia.
Qed.

End HelpersFacts.

(** ** More on the rewrite of references *)

Module RewriteFacts.

Import Js IdTranslateHelper Spec.

(** A recursive call that gives more gives more in a turn of the loop. *)
Lemma visitKey_mono (recur recur' : JsValue -> option JsValue) (items : list ImportItemResult)
      (data data' : list (string * JsValue)) (key : string) :
  (forall v r, recur v = Some r -> recur' v = Some r) ->
  visitKey recur items data key = Some data' -> visitKey recur' items data key = Some data'.
Proof.
  intros H. unfold visitKey. destruct (isObject (Obj.get key data)); [|trivial].
  destruct (recur (Obj.get key data)) as [r|] eqn:E; [|discriminate].
  now rewrite (H _ _ E).
Qed.

Lemma foldOpt_mono {A B : Type} (f f' : A -> B -> option A) (l : list B) (a r : A) :
  (forall x y z, f x y = Some z -> f' x y = Some z) ->
  foldOpt f l a = Some r -> foldOpt f' l a = Some r.
Proof.
  intros H. unfold foldOpt. revert a. induction l as [|y l IH]; intros a; simpl; [trivial|].
  destruct (f a y) as [z|] eqn:E.
  - rewrite (H _ _ _ E). apply IH.
  - intros Hnone. exfalso. clear -Hnone.
    induction l as [|y' l IH]; simpl in Hnone; [discriminate | auto].
Qed.

Lemma mapOpt_mono {A B : Type} (f f' : A -> option B) (l : list A) (r : list B) :
  (forall x y, f x = Some y -> f' x = Some y) ->
  mapOpt f l = Some r -> mapOpt f' l = Some r.
Proof.
  intros H. revert r. induction l as [|x l IH]; intros r; simpl; [trivial|].
  destruct (f x) as [y|] eqn:E; [|discriminate]. rewrite (H _ _ E).
  destruct (mapOpt f l) as [l'|]; [|discriminate]. now rewrite (IH l' eq_refl).
Qed.

Lemma walk_step (items : list ImportItemResult) (fuel : nat) (data : JsValue) :
  replaceIdReferencesWithNewId (S fuel) data items
  = if jsTruthy data then
      match data with
      | JArr elements =>
          option_map JArr (mapOpt (fun arrayItem => replaceIdReferencesWithNewId fuel arrayItem items)
                                  elements)
      | JObj properties =>
          option_map JObj
            (foldOpt (visitKey (fun val => replaceIdReferencesWithNewId fuel val items) items)
                     (Obj.keys properties) properties)
      | _ => Some data
      end
    else Some data.
Proof. reflexivity. Qed.

(** More fuel gives the same result. *)
Lemma replaceIdReferencesWithNewId_more_fuel (items : list ImportItemResult) (fuel : nat)
      (data r : JsValue) :
  replaceIdReferencesWithNewId fuel data items = Some r ->
  replaceIdReferencesWithNewId (S fuel) data items = Some r.
Proof.
  revert data r. induction fuel as [|fuel IH]; intros data r H; [discriminate|].
  rewrite walk_step in H. rewrite (walk_step items (S fuel)).
  destruct (jsTruthy data); [|exact H].
  destruct data as [| |b|n|s|elements|properties]; try exact H.
  - destruct (mapOpt _ elements) as [l|] eqn:E; [|discriminate].
    now rewrite (mapOpt_mono _ (fun arrayItem => replaceIdReferencesWithNewId (S fuel) arrayItem items)
                             _ _ (fun x y => IH x y) E).
  - destruct (foldOpt _ (Obj.keys properties) properties) as [o|] eqn:E; [|discriminate].
    rewrite (foldOpt_mono _ (visitKey (fun val => replaceIdReferencesWithNewId (S fuel) val items) items)
                          _ _ _ (fun x y z => visitKey_mono _ _ items x z y (fun v r => IH v r)) E).
    exact H.
Qed.

Lemma replaceIdReferencesWithNewId_fuel_le (items : list ImportItemResult) (fuel fuel' : nat)
      (data r : JsValue) :
  fuel <= fuel' ->
  replaceIdReferencesWithNewId fuel data items = Some r ->
  replaceIdReferencesWithNewId fuel' data items = Some r.
Proof.
  induction 1 as [|m Hle IH]; [trivial|]. intros H.
  apply replaceIdReferencesWithNewId_more_fuel. now apply IH.
Qed.

(** X3: with fuel above the depth of the tree, the walk over any tree ends
    with a tree that is no deeper, and this tree is the same for every
    such fuel. *)
Theorem walk_ends_whatever_the_fuel (items : list ImportItemResult) (data : JsValue)
        (fuel fuel' : nat) :
  depth data < fuel -> depth data < fuel' ->
  exists data',
    replaceIdReferencesWithNewId fuel data items = Some data'
    /\ replaceIdReferencesWithNewId fuel' data items = Some data'
    /\ depth data' <= depth data.
Proof.
  intros H H'.
  destruct (TreeWalk.replaceIdReferencesWithNewId_total items (S (depth data)) data)
    as (data' & E & Hd); [lia|].
  exists data'. split; [|split; [|exact Hd]].
  - apply (replaceIdReferencesWithNewId_fuel_le items (S (depth data))); [lia | exact E].
  - apply (replaceIdReferencesWithNewId_fuel_le items (S (depth data))); [lia | exact E].
Qed.

Lemma walk_ends_whatever_the_fuel_witness :
  exists data',
    replaceIdReferencesWithNewId 2 (Examples.element "a") Examples.chain = Some data'
    /\ replaceIdReferencesWithNewId 7 (Examples.element "a") Examples.chain = Some data'
    /\ depth data' <= depth (Examples.element "a").
Proof.
  apply (walk_ends_whatever_the_fuel Examples.chain (Examples.element "a") 2 7);
    vm_compute; lia.
Defined.

(** X4: the walk rewrites strings that are the values of properties only.
    A value that is no array and no object is left as it is, and so is an
    array of such values: a rich text that is an element of an array is not
    rewritten. *)
Theorem walk_leaves_elements_of_arrays (items : list ImportItemResult) (fuel : nat) :
  (forall data, isObject data = false ->
                replaceIdReferencesWithNewId (S fuel) data items = Some data)
  /\ (forall elements, Forall (fun x => isObject x = false) elements ->
                       replaceIdReferencesWithNewId (S (S fuel)) (JArr elements) items
                       = Some (JArr elements)).
Proof.
  assert (Hprim : forall n data, isObject data = false ->
                                 replaceIdReferencesWithNewId (S n) data items = Some data).
  { intros n data H. cbn [replaceIdReferencesWithNewId].
    destruct data; try discriminate; destruct (jsTruthy _); reflexivity. }
  split; [apply Hprim|].
  intros elements H. cbn [replaceIdReferencesWithNewId jsTruthy].
  rewrite TreeWalk.mapOpt_same; [reflexivity|].
  intros x Hx. apply Hprim. rewrite Forall_forall in H. now apply H.
Qed.

Lemma walk_leaves_elements_of_arrays_witness :
  replaceIdReferencesWithNewId 2 (JArr [JStr (Examples.image "a"); JNum 3]) Examples.chain
  = Some (JArr [JStr (Examples.image "a"); JNum 3]).
Proof.
  apply (proj2 (walk_leaves_elements_of_arrays Examples.chain 0)).
  repeat constructor.
Defined.

(** *** The shape of what the walk leaves *)








(** *** The table without ids *)

Lemma tryFindNewId_no_ids (items : list ImportItemResult) (id : string) :
  Forall (fun m => originalId m = None) items -> tryFindNewId (Some id) items = None.
Proof.
  intros H. unfold tryFindNewId.
  assert (E : find (fun m => optEqb (originalId m) (Some id)) items = None).
  { induction H as [|m l Hm _ IH]; [reflexivity|]. simpl. now rewrite Hm. }
  now rewrite E.
Qed.

(** X6: when no entry of the ledger was registered with an original id
    (the import had no asset), the four passes that resolve by id change
    nothing, whatever the text: the rewrite of a rich text is the pass over
    the codename markers alone. *)
Theorem rewrite_without_ids_is_the_codename_pass (items : list ImportItemResult) (text : string) :
  Forall (fun m => originalId m = None) items ->
  replaceIdsInRichText text items = replaceCodenameWithRegex "data-codename" text "data-id" items.
Proof.
  intros H.
  assert (Hpass : forall attr t, replaceIdWithRegex attr t attr items = t).
  { intros attr t. apply RichText.replaceIdWithRegex_settled. apply forallb_forall.
    intros [c|b] _; [reflexivity|]. unfold settledMarker, settledId.
    rewrite (tryFindNewId_no_ids items b H). now rewrite orb_true_r. }
  unfold replaceIdsInRichText. now rewrite !Hpass.
Qed.

(** The ledger has the item [article] alone: the codename marker is
    translated and the asset marker is left. *)
Lemma rewrite_without_ids_is_the_codename_pass_witness :
  replaceIdsInRichText ("<a " +++ attrEq "data-codename" "article" +++ " "
                              +++ attrEq "data-asset-id" "a" +++ ">") Examples.onlyCodenames
  = "<a " +++ attrEq "data-id" "g" +++ " " +++ attrEq "data-asset-id" "a" +++ ">".
Proof.
  rewrite (rewrite_without_ids_is_the_codename_pass Examples.onlyCodenames).
  - reflexivity.
  - repeat constructor.
Defined.

End RewriteFacts.

(** ** More on the stages of the import *)

Module StageFacts.

Import Spec ImportService Runs.

(** *** The filters of the configuration *)

Lemma filter_filter {A : Type} (f g : A -> bool) (l : list A) :
  filter f (filter g l) = filter (fun x => g x && f x) l.
Proof.
  induction l as [|x l IH]; simpl; [reflexivity|].
  destruct (g x); simpl; [destruct (f x)|]; now rewrite IH.
Qed.

(** The loop over the source list, which filters the working list by the
    key of each element that the filter refuses. *)
Lemma removal_loop {A : Type} (canImport : A -> bool) (key : A -> string)
      (l acc : list A) (n : nat) :
  fold_left (fun (state : list A * nat) (x : A) =>
               if canImport x then state
               else (filter (fun m => negb (String.eqb (key m) (key x))) (fst state), S (snd state)))
            l (acc, n)
  = (filter (fun m => forallb (fun x => canImport x || negb (String.eqb (key m) (key x))) l) acc,
     n + List.length (filter (fun x => negb (canImport x)) l)).
Proof.
  revert acc n. induction l as [|x l IH]; intros acc n; simpl.
  - f_equal; [|lia]. induction acc as [|a acc IHacc]; simpl; [reflexivity | now rewrite <- IHacc].
  - destruct (canImport x) eqn:E; simpl.
    + apply IH.
    + rewrite IH. cbn [fst snd]. rewrite filter_filter. f_equal. simpl. lia.
Qed.

Lemma kept_iff {A : Type} (canImport : A -> bool) (key : A -> string) (l : list A) (a : A) :
  In a (filter (fun m => forallb (fun x => canImport x || negb (String.eqb (key m) (key x))) l) l)
  <-> In a l /\ forall r, In r l -> canImport r = false -> key r <> key a.
Proof.
  rewrite filter_In, forallb_forall. split; intros [Hin H]; (split; [exact Hin|]).
  - intros r Hr Hrefused E. specialize (H r Hr). rewrite Hrefused, E, String.eqb_refl in H.
    discriminate.
  - intros r Hr. destruct (canImport r) eqn:E; [reflexivity|]. simpl.
    apply negb_true_iff, String.eqb_neq. intros E'. now apply (H r Hr E).
Qed.

(** X7: [removeSkippedItemsFromImport] sends no request and pushes nothing.
    With a filter for assets, an asset of the source is kept when no asset
    of the source that the filter refuses has its [assetId]: every asset
    kept is accepted, and an accepted asset that shares its id with a
    refused one is removed too.  The same holds for the content items and
    their codenames, so that refusing one language of an item removes all
    its languages.  Without a filter the list is kept as it is. *)
Theorem removeSkippedItemsFromImport_keeps (config : ImportConfig) (source : ImportSource)
        (w : World) :
  exists kept w',
    removeSkippedItemsFromImport config source w = (inr kept, w')
    /\ requests w' = requests w /\ importedItems w' = importedItems w
    /\ metadata kept = metadata source
    /\ match canImportAsset config with
       | Some canImport =>
           forall a, In a (assets kept)
                     <-> In a (assets source)
                         /\ forall r, In r (assets source) -> canImport r = false ->
                                      assetId r <> assetId a
       | None => assets kept = assets source
       end
    /\ match canImportContentItem config with
       | Some canImport =>
           forall i, In i (items kept)
                     <-> In i (items source)
                         /\ forall r, In r (items source) -> canImport r = false ->
                                      codename r <> codename i
       | None => items kept = items source
       end.
Proof.
  unfold removeSkippedItemsFromImport.
  destruct (canImportAsset config) as [canAsset|];
    destruct (canImportContentItem config) as [canItem|];
    rewrite ?(removal_loop canAsset assetId), ?(removal_loop canItem codename);
    cbv zeta;
    repeat match goal with
           | |- context [if ?b then consoleLog _ else ret tt] => destruct b
           end;
    eexists _, _; (split; [reflexivity|]); cbn;
    (split; [reflexivity|]); (split; [reflexivity|]); (split; [reflexivity|]);
    split; first [reflexivity | intros ?; apply kept_iff].
Qed.

(** A filter on the external id: the picture [a1] is kept. *)
Lemma removeSkippedItemsFromImport_keeps_witness :
  exists kept w',
    removeSkippedItemsFromImport More.onlyA1 Fixtures.twoAssets newWorld = (inr kept, w')
    /\ In Fixtures.picture (assets kept).
Proof.
  destruct (removeSkippedItemsFromImport_keeps More.onlyA1 Fixtures.twoAssets newWorld)
    as (kept & w' & E & _ & _ & _ & Hassets & _).
  exists kept, w'. split; [exact E|]. apply Hassets. split; [now left|].
  intros r [<-|[<-|[]]] H; [discriminate H | discriminate].
Defined.

(** *** The asset stage *)

Lemma viewExistingAsset_run (client : Client) (externalId : string) (existing : option Asset)
      (w : World) :
  viewExistingAsset client externalId existing w
  = (match viewAsset client (requests w ++ [ViewAssetByExternalId externalId]) with
     | inr response => inr (Some response)
     | inl error => if isNotFound error then inr existing else inl error
     end,
     withRequests w (requests w ++ [ViewAssetByExternalId externalId])).
Proof.
  unfold viewExistingAsset. run.
  destruct (viewAsset client _) as [error|response]; [|reflexivity].
  destruct (isNotFound error); reflexivity.
Qed.

(** X8: an asset that the two lookups do not find (404) is uploaded, then
    created with the id of the uploaded file as file reference and its own
    [assetId] as external id.  Two entries are pushed, the second of which
    registers the [assetId]: when no earlier entry does, the [assetId]
    resolves to the id of the created asset. *)
Theorem new_asset_is_uploaded_then_created
        (client : Client) (asset : ImportAsset) (w : World)
        (e1 e2 : Thrown) (file : BinaryFile) (created : Asset) :
  let lookup := ViewAssetByExternalId (assetId asset) in
  let upload :=
    UploadBinaryFile (binaryData asset) (match mimeType asset with Some t => t | None => "" end)
                     (filename asset) in
  let add := AddAsset (file_id file) (assetId asset) in
  let uploaded := mkResult (OfBinaryFile file) (OfImportAsset asset) None None None in
  let registered := mkResult (OfAsset created) (OfImportAsset asset) (Some (asset_id created))
                             (Some (assetId asset)) None in
  viewAsset client (requests w ++ [lookup]) = inl e1 -> isNotFound e1 = true ->
  viewAsset client ((requests w ++ [lookup]) ++ [lookup]) = inl e2 -> isNotFound e2 = true ->
  uploadBinaryFile client (((requests w ++ [lookup]) ++ [lookup]) ++ [upload]) = inr file ->
  addAsset client ((((requests w ++ [lookup]) ++ [lookup]) ++ [upload]) ++ [add]) = inr created ->
  (forall m, In m (importedAssets w) -> registersId (assetId asset) m = false) ->
  exists w',
    importAsset client asset w = (inr tt, w')
    /\ requests w' = requests w ++ [lookup; lookup; upload; add]
    /\ importedAssets w' = importedAssets w ++ [uploaded; registered]
    /\ IdTranslateHelper.tryFindNewId (Some (assetId asset)) (importedAssets w')
       = Some (asset_id created).
Proof.
  intros lookup upload add uploaded registered H1 N1 H2 N2 Hupload Hadd Hfresh.
  eexists. split; [|split; [|split]].
  - unfold importAsset. unfold bind at 1. rewrite viewExistingAsset_run. fold lookup.
    rewrite H1, N1. unfold bind at 1. rewrite viewExistingAsset_run. fold lookup.
    cbn [requests withRequests]. rewrite H2, N2. run. fold upload. rewrite Hupload. run.
    fold add. rewrite Hadd. reflexivity.
  - cbn [requests]. now rewrite <- !app_assoc.
  - cbn [importedAssets]. now rewrite <- !app_assoc.
  - change (IdTranslateHelper.tryFindNewId
              (Some (assetId asset)) ((importedAssets w ++ [uploaded]) ++ registered :: [])
            = Some (asset_id created)).
    unfold IdTranslateHelper.tryFindNewId.
    rewrite (TranslationTable.find_first
               (fun m => Js.optEqb (originalId m) (Some (assetId asset)))
               (importedAssets w ++ [uploaded]) registered []).
    + reflexivity.
    + cbn. apply String.eqb_refl.
    + intros m Hm. apply in_app_or in Hm as [Hm|[<-|[]]]; [now apply Hfresh | reflexivity].
Qed.

Lemma new_asset_is_uploaded_then_created_witness :
  exists w',
    importAsset More.emptyTarget Fixtures.picture newWorld = (inr tt, w')
    /\ requests w'
       = [ViewAssetByExternalId "a1"; ViewAssetByExternalId "a1";
          UploadBinaryFile "binary" "image/png" "picture.png"; AddAsset "file-1" "a1"]
    /\ importedAssets w'
       = [mkResult (OfBinaryFile (mkBinaryFile "file-1")) (OfImportAsset Fixtures.picture)
                   None None None;
          mkResult (OfAsset (mkAsset "asset-1" (Some "a1"))) (OfImportAsset Fixtures.picture)
                   (Some "asset-1") (Some "a1") None]
    /\ IdTranslateHelper.tryFindNewId (Some "a1") (importedAssets w') = Some "asset-1".
Proof.
  apply (new_asset_is_uploaded_then_created
           More.emptyTarget Fixtures.picture newWorld More.notFound More.notFound
           (mkBinaryFile "file-1") (mkAsset "asset-1" (Some "a1")));
    try reflexivity.
  intros m [].
Defined.

(** What the import of one asset does, whatever the target answers. *)
Ltac close_asset n f :=
  eexists _, _, n, f;
  split; [reflexivity|];
  split; [lia|];
  split; [cbn [requests firstn More.assetRequests]; rewrite <- ?app_assoc; reflexivity|];
  split; [intros ?; first [lia | split; eauto]|];
  split; [|reflexivity];
  intros E; first [discriminate E
                  | do 2 eexists; split; [cbn [importedAssets]; rewrite <- ?app_assoc; reflexivity|];
                    split; [first [now left | right; eexists; reflexivity]|];
                    split; [reflexivity | eexists; reflexivity]].

Lemma importAsset_outcome (client : Client) (asset : ImportAsset) (w : World) :
  let lookup := ViewAssetByExternalId (assetId asset) in
  exists r w' n file,
    importAsset client asset w = (r, w')
    /\ 1 <= n <= 4
    /\ requests w' = requests w ++ firstn n (More.assetRequests asset file)
    /\ (3 <= n ->
        (exists e, viewAsset client (requests w ++ [lookup]) = inl e /\ isNotFound e = true)
        /\ (exists e, viewAsset client ((requests w ++ [lookup]) ++ [lookup]) = inl e
                      /\ isNotFound e = true))
    /\ (r = inr tt ->
        exists e1 e2,
          importedAssets w' = importedAssets w ++ [e1; e2]
          /\ More.resolvable e1
          /\ originalId e2 = Some (assetId asset)
          /\ exists new, importId e2 = Some new)
    /\ importedItems w' = importedItems w.
Proof.
  intros lookup. unfold importAsset. unfold bind at 1. rewrite viewExistingAsset_run. fold lookup.
  destruct (viewAsset client (requests w ++ [lookup])) as [e1|a1] eqn:V1;
    [destruct (isNotFound e1) eqn:N1|];
    try (close_asset 1 "");
    unfold bind at 1; rewrite viewExistingAsset_run; fold lookup; cbn [requests withRequests];
    (destruct (viewAsset client ((requests w ++ [lookup]) ++ [lookup])) as [e2|a2] eqn:V2;
     [destruct (isNotFound e2) eqn:N2|]);
    run; try (close_asset 2 "").
  destruct (uploadBinaryFile client _) as [eu|file] eqn:U; [close_asset 3 ""|].
  run. destruct (addAsset client _) as [ea|created] eqn:A; close_asset 4 (file_id file).
Qed.

(** X9: whatever the target answers, the requests that the import of one
    asset sends are the first one, two, three or four of: lookup, lookup,
    upload, creation.  The upload is sent only after both lookups answered
    404; no request changes or deletes an asset of the target. *)
Theorem asset_requests_are_lookups_then_upload_then_creation
        (client : Client) (asset : ImportAsset) (w : World) :
  let lookup := ViewAssetByExternalId (assetId asset) in
  exists n file,
    1 <= n <= 4
    /\ requests (snd (importAsset client asset w))
       = requests w ++ firstn n (More.assetRequests asset file)
    /\ (3 <= n ->
        (exists e, viewAsset client (requests w ++ [lookup]) = inl e /\ isNotFound e = true)
        /\ (exists e, viewAsset client ((requests w ++ [lookup]) ++ [lookup]) = inl e
                      /\ isNotFound e = true)).
Proof.
  intros lookup.
  destruct (importAsset_outcome client asset w) as (r & w' & n & file & E & Hn & Hreq & H404 & _).
  exists n, file. rewrite E. auto.
Qed.

(** The target is empty: the four requests are sent, after two answers 404. *)
Lemma asset_requests_are_lookups_then_upload_then_creation_witness :
  exists e, viewAsset More.emptyTarget [ViewAssetByExternalId "a1"] = inl e /\ isNotFound e = true.
Proof.
  destruct (asset_requests_are_lookups_then_upload_then_creation
              More.emptyTarget Fixtures.picture newWorld) as (n & file & Hn & Hreq & H404).
  apply H404.
  assert (E : List.length (requests (snd (importAsset More.emptyTarget Fixtures.picture newWorld)))
              = 4) by reflexivity.
  rewrite Hreq in E. cbn [requests newWorld app] in E. rewrite length_firstn in E.
  cbn [List.length More.assetRequests] in E. lia.
Defined.

(** The loop of the stage, when it ends without error. *)
Lemma asset_loop (client : Client) (assets : list ImportAsset) (w w' : World) :
  forEach assets (importAsset client) w = (inr tt, w') ->
  exists added,
    importedAssets w' = importedAssets w ++ added
    /\ List.length added = 2 * List.length assets
    /\ Forall More.resolvable added
    /\ forall a, In a assets -> exists e, In e added /\ originalId e = Some (assetId a).
Proof.
  revert w. induction assets as [|a assets IH]; intros w H.
  - inversion H. subst. exists []. rewrite app_nil_r. repeat split; [constructor | intros ? []].
  - cbn [forEach] in H. unfold bind in H.
    destruct (importAsset_outcome client a w) as (r & w1 & n & file & E & _ & _ & _ & Hok & _).
    rewrite E in H. destruct r as [e|[]]; [discriminate|].
    destruct (Hok eq_refl) as (e1 & e2 & Hledger & He1 & He2 & Hnew).
    destruct (IH w1 H) as (added & Hadded & Hlen & Hall & Hreg).
    exists (e1 :: e2 :: added). split; [|split; [|split]].
    + rewrite Hadded, Hledger, <- app_assoc. reflexivity.
    + cbn [List.length]. lia.
    + constructor; [exact He1|]. constructor; [right; exact Hnew | exact Hall].
    + intros x [<-|Hx].
      * exists e2. split; [right; now left | exact He2].
      * destruct (Hreg x Hx) as (e & He & Hid). exists e. split; [right; right; exact He | exact Hid].
Qed.

(** X10: when the asset stage ends without error, the ledger it returns
    has two entries for each asset, and the [assetId] of every asset of the
    source resolves in it. *)
Theorem asset_stage_registers_every_asset
        (client : Client) (assets : list ImportAsset) (w w' : World)
        (ledger : list ImportItemResult) :
  importAssetsAsync client assets w = (inr ledger, w') ->
  List.length ledger = 2 * List.length assets
  /\ forall a, In a assets ->
               exists new, IdTranslateHelper.tryFindNewId (Some (assetId a)) ledger = Some new.
Proof.
  unfold importAssetsAsync. intros H. unfold bind at 1 in H. cbn [modify] in H.
  unfold bind at 1 in H.
  destruct (forEach assets (importAsset client) (withImportedAssets w [])) as [[e|[]] w1] eqn:E;
    [discriminate|].
  destruct (asset_loop client assets _ _ E) as (added & Hadded & Hlen & Hall & Hreg).
  cbn in Hadded. inversion H. subst ledger w'. rewrite Hadded. split; [exact Hlen|].
  intros a Ha. destruct (Hreg a Ha) as (e & He & Hid).
  unfold IdTranslateHelper.tryFindNewId.
  destruct (find (fun m => Js.optEqb (originalId m) (Some (assetId a))) added) as [m|] eqn:F.
  - apply find_some in F as [Hm Horig]. rewrite Forall_forall in Hall.
    destruct (Hall m Hm) as [Hnone|[new Hnew]].
    + rewrite Hnone in Horig. discriminate.
    + now exists new.
  - exfalso. apply (find_none _ _ F) in He. rewrite Hid in He. cbn in He.
    now rewrite String.eqb_refl in He.
Qed.

Lemma asset_stage_registers_every_asset_witness :
  exists new, IdTranslateHelper.tryFindNewId (Some "a1")
                (existingAssetEntry Fixtures.picture (mkAsset "target-asset" None)
                 :: [existingAssetEntry Fixtures.picture (mkAsset "target-asset" None)])
              = Some new.
Proof.
  destruct (asset_stage_registers_every_asset
              Fixtures.everyAssetExists [Fixtures.picture] newWorld
              (snd (importAssetsAsync Fixtures.everyAssetExists [Fixtures.picture] newWorld))
              [existingAssetEntry Fixtures.picture (mkAsset "target-asset" None);
               existingAssetEntry Fixtures.picture (mkAsset "target-asset" None)]
              eq_refl) as [_ H].
  apply (H Fixtures.picture). now left.
Defined.

(** *** The content items *)

(** X11: when the lookup of an item by codename fails, an error other than
    404 is thrown again as it is and nothing is created; on a 404 the item
    is created with the name, type, codename and collection of the source,
    and one entry is pushed, which registers the codename of the created
    item with its id. *)
Theorem missing_item_is_created (client : Client) (item : ParsedContentItem) (w : World)
        (e : Thrown) :
  let view := ViewContentItem (codename item) in
  let add := AddContentItem (name item) (type item) (codename item) (collection item) in
  viewContentItem client (requests w ++ [view]) = inl e ->
  (isNotFound e = false ->
   prepareContentItemForImportAsync client item w = (inl e, withRequests w (requests w ++ [view])))
  /\ (isNotFound e = true ->
      forall created,
        addContentItem client ((requests w ++ [view]) ++ [add]) = inr created ->
        prepareContentItemForImportAsync client item w
        = (inr created,
           mkWorld (requests w ++ [view; add])
                   (console w ++ [LogProcessed (ci_name created) ItemType.contentItem
                                               ActionType.create])
                   (importedItems w ++
                    [mkResult (OfContentItem created) (OfContentItem created)
                              (Some (ci_id created)) None (Some (ci_codename created))])
                   (importedAssets w) (preparedItems w) (upsertedLanguageVariants w))).
Proof.
  intros view add Hview. split.
  - intros N. unfold prepareContentItemForImportAsync. run. fold view. rewrite Hview, N.
    reflexivity.
  - intros N created Hadd. unfold prepareContentItemForImportAsync. run. fold view.
    rewrite Hview, N. run. fold add. rewrite Hadd. rewrite <- !app_assoc. reflexivity.
Qed.

Lemma missing_item_is_created_witness :
  fst (prepareContentItemForImportAsync More.emptyTarget (Fixtures.homeOf "default") newWorld)
  = inr (mkContentItem "item-9" "Home" "home" (mkReference (Some "col-1") None))
  /\ requests (snd (prepareContentItemForImportAsync More.emptyTarget (Fixtures.homeOf "default")
                                                     newWorld))
     = [ViewContentItem "home"; AddContentItem "Home" "page" "home" "default"].
Proof.
  destruct (missing_item_is_created More.emptyTarget (Fixtures.homeOf "default") newWorld
                                    More.notFound eq_refl) as [_ H].
  rewrite (H eq_refl _ eq_refl). split; reflexivity.
Defined.

Ltac close_item :=
  cbn [importedItems preparedItems withConsole withImportedItems withRequests withPreparedItems];
  rewrite <- ?app_assoc; eexists _, _, _;
  split; [reflexivity|]; split; [reflexivity|]; split; [reflexivity|]; split; [reflexivity|];
  split; [reflexivity|]; split; [eexists; reflexivity|]; split; reflexivity.

(** X12: when the block of the first loop ends without error for an item
    with a workflow step, whatever the target answered, the item is in
    [preparedItems] and two entries were pushed: one registers the codename
    of the prepared item with its id, the other the codename of the source
    item with an id.  Neither has an original id. *)
Theorem prepared_item_is_registered (client : Client) (collections : list Collection)
        (item : ParsedContentItem) (w w' : World) :
  hasWorkflowStep item = true ->
  processContentItem client collections item w = (inr tt, w') ->
  exists prepared e0 e,
    importedItems w' = importedItems w ++ [e0; e]
    /\ preparedItems w' = preparedItems w ++ [prepared]
    /\ originalCodename e0 = Some (ci_codename prepared)
    /\ importId e0 = Some (ci_id prepared)
    /\ originalCodename e = Some (codename item)
    /\ (exists new, importId e = Some new)
    /\ originalId e0 = None /\ originalId e = None.
Proof.
  intros Hstep. unfold processContentItem. rewrite Hstep. cbn [negb].
  unfold prepareContentItemForImportAsync. run.
  destruct (viewContentItem client _) as [e|found] eqn:V.
  - destruct (isNotFound e); [|discriminate]. run.
    destruct (addContentItem client _) as [ea|created] eqn:A; [discriminate|].
    destruct (shouldUpdateContentItem item created collections) as [es|[|]]; [discriminate| |].
    + run. destruct (upsertContentItem client _) as [eu|upserted]; [discriminate|].
      intros H. inversion H. close_item.
    + run. intros H. inversion H. close_item.
  - destruct (shouldUpdateContentItem item found collections) as [es|[|]]; [discriminate| |].
    + run. destruct (upsertContentItem client _) as [eu|upserted]; [discriminate|].
      intros H. inversion H. close_item.
    + run. intros H. inversion H. close_item.
Qed.

Lemma prepared_item_is_registered_witness :
  exists prepared e0 e,
    importedItems (snd (processContentItem Fixtures.homeExists Fixtures.collections
                                           (Fixtures.homeOf "marketing") newWorld))
    = importedItems newWorld ++ [e0; e]
    /\ preparedItems (snd (processContentItem Fixtures.homeExists Fixtures.collections
                                              (Fixtures.homeOf "marketing") newWorld))
       = preparedItems newWorld ++ [prepared]
    /\ originalCodename e0 = Some (ci_codename prepared)
    /\ importId e0 = Some (ci_id prepared)
    /\ originalCodename e = Some "home"
    /\ (exists new, importId e = Some new)
    /\ originalId e0 = None /\ originalId e = None.
Proof.
  apply (prepared_item_is_registered Fixtures.homeExists Fixtures.collections
                                     (Fixtures.homeOf "marketing") newWorld); reflexivity.
Defined.

(** The two loops pass over the items without a workflow step. *)
Lemma loop_over_components (items : list ParsedContentItem) (block : ParsedContentItem -> M unit)
      (handler : ParsedContentItem -> Thrown -> M unit) (w : World) :
  (forall i, In i items -> block i = ret tt) ->
  forEach items (fun i => tryCatch (block i) (handler i)) w = (inr tt, w).
Proof.
  induction items as [|i items IH]; intros H; [reflexivity|].
  cbn [forEach]. unfold bind, tryCatch. rewrite (H i) by now left. cbn [ret].
  apply IH. intros j Hj. apply H. now right.
Qed.

(** X13: when no item of the source has a workflow step (all are
    components), the content item stage lists the workflows and the
    collections and sends nothing else: no item is looked up, created or
    upserted, no variant is written, the ledger is as it was. *)
Theorem components_are_not_imported
        (client : Client) (config : ImportConfig) (defaultWorkflowCodename : string)
        (transformToImportValue : JsValue -> string -> string -> list ImportItemResult ->
                                  list ParsedContentItem -> Thrown + option JsValue)
        (items : list ParsedContentItem) (w : World)
        (workflows : list Workflow) (collections : list Collection) :
  Forall (fun i => hasWorkflowStep i = false) items ->
  listWorkflows client (requests w ++ [ListWorkflows]) = inr workflows ->
  listCollections client ((requests w ++ [ListWorkflows]) ++ [ListCollections]) = inr collections ->
  importContentItemsAsync client config defaultWorkflowCodename transformToImportValue items w
  = (inr ([], []),
     mkWorld (requests w ++ [ListWorkflows; ListCollections]) (console w) (importedItems w)
             (importedAssets w) [] []).
Proof.
  intros Hall Hw Hc. rewrite Forall_forall in Hall.
  unfold importContentItemsAsync, getWorkflowsAsync, getCollectionsAsync.
  unfold bind at 1. cbn [modify]. unfold bind at 1. unfold send at 1.
  cbn [requests withRequests withPreparedItems withUpsertedLanguageVariants]. rewrite Hw.
  unfold bind at 1. unfold send at 1. cbn [requests withRequests]. rewrite Hc.
  unfold bind at 1. rewrite loop_over_components.
  - unfold bind at 1. rewrite loop_over_components.
    + run. now rewrite <- app_assoc.
    + intros i Hi. unfold processLanguageVariant. now rewrite (Hall i Hi).
  - intros i Hi. unfold processContentItem. now rewrite (Hall i Hi).
Qed.

Lemma components_are_not_imported_witness :
  requests (snd (importContentItemsAsync Fixtures.homeExists (Fixtures.config false) "default"
                                         Fixtures.noContract [More.component] newWorld))
  = [ListWorkflows; ListCollections].
Proof.
  rewrite (components_are_not_imported
             Fixtures.homeExists (Fixtures.config false) "default" Fixtures.noContract
             [More.component] newWorld Fixtures.workflows Fixtures.collections).
  - reflexivity.
  - repeat constructor.
  - reflexivity.
  - reflexivity.
Defined.

End StageFacts.

(** ** More on language variants and workflows *)

Module VariantFacts.

Import Spec ImportService Runs.

Section Variants.

Variable client : Client.
Variable defaultWorkflowCodename : string.
Variable transformToImportValue :
  JsValue -> string -> string -> list ImportItemResult -> list ParsedContentItem ->
  Thrown + option JsValue.

(** X14: whatever the target answers, the preparation of a language
    variant sends the lookup of the variant and at most one request more: the
    creation of a new version, only for a variant found at a published
    step, or a change of step, only for a variant found at an archived step
    that is no published step.  It never upserts or publishes. *)
Theorem preparation_sends_at_most_one_operation
        (item : ParsedContentItem) (workflows : list Workflow) (w : World) :
  let view := ViewLanguageVariant (codename item) (language item) in
  let answer := viewLanguageVariant client (requests w ++ [view]) in
  exists operations,
    requests (snd (prepareLanguageVariantForImportAsync client defaultWorkflowCodename
                                                        item workflows w))
    = requests w ++ view :: operations
    /\ (operations = []
        \/ (operations = [CreateNewVersionOfLanguageVariant (codename item) (language item)]
            /\ exists variant, answer = inr variant
                               /\ isLanguageVariantPublished variant workflows = true)
        \/ (exists step variant,
               operations = [ChangeWorkflowStepOfLanguageVariant (codename item) (language item) step]
               /\ answer = inr variant
               /\ isLanguageVariantPublished variant workflows = false
               /\ isLanguageVariantArchived variant workflows = true)).
Proof.
  intros view answer. unfold prepareLanguageVariantForImportAsync. run. fold view. fold answer.
  destruct answer as [e|variant] eqn:A.
  - destruct (isNotFound e); exists []; cbn [negb snd requests]; split; auto.
  - destruct (isLanguageVariantPublished variant workflows) eqn:P.
    + run. destruct (createNewVersionOfLanguageVariant client _);
        eexists; (split; [cbn [snd requests]; rewrite <- ?app_assoc; reflexivity|]);
        right; left; eauto.
    + destruct (isLanguageVariantArchived variant workflows) eqn:R;
        [|exists []; split; [reflexivity | auto]].
      destruct (ref_id (lv_workflowStep variant)) as [id|];
        [|exists []; split; [reflexivity | auto]].
      destruct (Js.truthyStr id); [|exists []; split; [reflexivity | auto]].
      destruct (getWorkflowForGivenStepById defaultWorkflowCodename id workflows) as [e|workflow];
        [exists []; split; [reflexivity | auto]|].
      cbn [orThrow]. run.
      destruct (nth_error (wf_steps workflow) 0) as [step|];
        [|exists []; split; [reflexivity | auto]].
      run. destruct (changeWorkflowStepOfLanguageVariant client _);
        eexists; (split; [cbn [snd requests]; rewrite <- ?app_assoc; reflexivity|]);
        right; right; eauto 6.
Qed.


(** X15: for an item that the first loop prepared, whose variant is not in
    the target (404) and whose step in the source is an archived step and
    no published step: when the elements translate and the requests
    succeed, the second loop sends the lookup, the upsert of the variant,
    and a change of workflow to the archived step of [workflow], the first
    workflow that has the step codename as archived step, published step or
    among its steps. *)
Theorem new_variant_is_archived_in_the_workflow_of_the_step
        (importContentItems : list ParsedContentItem) (workflows : list Workflow)
        (item : ParsedContentItem) (w : World) (step : string) (prepared : ContentItem)
        (e : Thrown) (workflow : Workflow) (contracts : list JsValue) (upserted : LanguageVariant) :
  let view := ViewLanguageVariant (codename item) (language item) in
  let upsert := UpsertLanguageVariant (ci_codename prepared) (language item) contracts in
  let archive :=
    ChangeWorkflowOfLanguageVariant (codename item) (language item)
                                    (step_codename (wf_archivedStep workflow))
                                    (wf_codename workflow) in
  find (fun m => String.eqb (ci_codename m) (codename item)) (preparedItems w) = Some prepared ->
  workflow_step item = Some step -> step <> "" ->
  doesWorkflowStepCodenameRepresentPublishedStep step workflows = false ->
  doesWorkflowStepCodenameRepresentArchivedStep step workflows = true ->
  firstWith (hasStepCodename step) workflows workflow ->
  viewLanguageVariant client (requests w ++ [view]) = inl e -> isNotFound e = true ->
  elementContracts transformToImportValue importContentItems (elements item) (importedItems w)
  = inr contracts ->
  upsertLanguageVariant client ((requests w ++ [view]) ++ [upsert]) = inr upserted ->
  changeWorkflowOfLanguageVariant client (((requests w ++ [view]) ++ [upsert]) ++ [archive])
  = inr tt ->
  exists w',
    processLanguageVariant client defaultWorkflowCodename transformToImportValue
                           importContentItems workflows item w = (inr tt, w')
    /\ requests w' = requests w ++ [view; upsert; archive]
    /\ upsertedLanguageVariants w' = upsertedLanguageVariants w ++ [upserted].
Proof.
  intros view upsert archive Hprepared Hstep Hstep' Hpublished Harchived Hworkflow
         Hview N Hcontracts Hupsert Harchive.
  assert (Tstep : Js.truthyStr step = true) by (destruct step; [congruence | reflexivity]).
  assert (Hprepare :
            prepareLanguageVariantForImportAsync client defaultWorkflowCodename item workflows w
            = (inr tt, withRequests w (requests w ++ [view]))).
  { unfold prepareLanguageVariantForImportAsync. run. fold view. rewrite Hview, N. reflexivity. }
  assert (Hwf : getWorkflowForGivenStepByCodename defaultWorkflowCodename step workflows
                = inr workflow).
  { rewrite Workflows.getWorkflowForGivenStepByCodename_find.
    now rewrite (Workflows.find_firstWith _ workflows workflow Hworkflow). }
  eexists. split; [|split].
  - unfold processLanguageVariant, hasWorkflowStep. rewrite Hstep. cbn [Js.truthy]. rewrite Tstep.
    cbn [negb]. unfold get at 1. unfold bind at 1. rewrite Hprepared.
    rewrite (bind_value _ _ _ _ _ Hprepare).
    run. rewrite Hcontracts. run. fold upsert. rewrite Hupsert. run.
    rewrite Hpublished, Harchived, Hwf. run. fold archive. rewrite Harchive. reflexivity.
  - cbn [requests]. now rewrite <- !app_assoc.
  - reflexivity.
Qed.


(** X16: for an item that the first loop prepared, whose variant is found
    at a published step and whose step in the source is a published step:
    when the elements translate and the requests succeed, the second loop
    sends the lookup, the creation of a new version, the upsert and the
    publication, in this order. *)
Theorem published_variant_gets_a_new_version_first
        (importContentItems : list ParsedContentItem) (workflows : list Workflow)
        (item : ParsedContentItem) (w : World) (step : string) (prepared : ContentItem)
        (variant : LanguageVariant) (contracts : list JsValue) (upserted : LanguageVariant) :
  let view := ViewLanguageVariant (codename item) (language item) in
  let newVersion := CreateNewVersionOfLanguageVariant (codename item) (language item) in
  let upsert := UpsertLanguageVariant (ci_codename prepared) (language item) contracts in
  let publish := PublishLanguageVariant (codename item) (language item) in
  let pushed := mkResult (OfLanguageVariant variant) (OfParsedItem item) None None None in
  find (fun m => String.eqb (ci_codename m) (codename item)) (preparedItems w) = Some prepared ->
  workflow_step item = Some step -> step <> "" ->
  doesWorkflowStepCodenameRepresentPublishedStep step workflows = true ->
  viewLanguageVariant client (requests w ++ [view]) = inr variant ->
  isLanguageVariantPublished variant workflows = true ->
  createNewVersionOfLanguageVariant client ((requests w ++ [view]) ++ [newVersion]) = inr tt ->
  elementContracts transformToImportValue importContentItems (elements item)
                   ((importedItems w ++ [pushed]) ++ [pushed]) = inr contracts ->
  upsertLanguageVariant client (((requests w ++ [view]) ++ [newVersion]) ++ [upsert])
  = inr upserted ->
  publishLanguageVariant client ((((requests w ++ [view]) ++ [newVersion]) ++ [upsert]) ++ [publish])
  = inr tt ->
  exists w',
    processLanguageVariant client defaultWorkflowCodename transformToImportValue
                           importContentItems workflows item w = (inr tt, w')
    /\ requests w' = requests w ++ [view; newVersion; upsert; publish].
Proof.
  intros view newVersion upsert publish pushed Hprepared Hstep Hstep' Hdesired Hview Hpublished
         Hnew Hcontracts Hupsert Hpublish.
  assert (Tstep : Js.truthyStr step = true) by (destruct step; [congruence | reflexivity]).
  assert (Hprepare :
            prepareLanguageVariantForImportAsync client defaultWorkflowCodename item workflows w
            = (inr tt,
               mkWorld ((requests w ++ [view]) ++ [newVersion])
                       (console w ++ [LogProcessed (name item +++ " | " +++ language item)
                                                   ItemType.languageVariant
                                                   ActionType.createNewVersion])
                       ((importedItems w ++ [pushed]) ++ [pushed])
                       (importedAssets w) (preparedItems w) (upsertedLanguageVariants w))).
  { unfold prepareLanguageVariantForImportAsync. run. fold view. rewrite Hview, Hpublished.
    run. fold newVersion. rewrite Hnew. reflexivity. }
  eexists. split.
  - unfold processLanguageVariant, hasWorkflowStep. rewrite Hstep. cbn [Js.truthy]. rewrite Tstep.
    cbn [negb]. unfold get at 1. unfold bind at 1. rewrite Hprepared.
    rewrite (bind_value _ _ _ _ _ Hprepare).
    run. rewrite Hcontracts. run. fold upsert. rewrite Hupsert. run.
    rewrite Hdesired. run. fold publish. rewrite Hpublish. reflexivity.
  - cbn [requests]. now rewrite <- !app_assoc.
Qed.


End Variants.

(** [home] is not in the target as a variant; [retired] is the archived
    step of the workflow [news]. *)
Lemma new_variant_is_archived_in_the_workflow_of_the_step_witness :
  exists w',
    processLanguageVariant More.emptyTarget "default" Fixtures.textContract
                           [More.homeRetired] Fixtures.workflows
                           More.homeRetired Fixtures.homePrepared = (inr tt, w')
    /\ requests w'
       = requests Fixtures.homePrepared
         ++ [ViewLanguageVariant "home" "en";
             UpsertLanguageVariant "home" "en" [JStr "Home"];
             ChangeWorkflowOfLanguageVariant "home" "en" "retired" "news"]
    /\ upsertedLanguageVariants w'
       = upsertedLanguageVariants Fixtures.homePrepared
         ++ [mkVariant (mkReference None None) (mkReference None None) (mkReference None None)].
Proof.
  apply (new_variant_is_archived_in_the_workflow_of_the_step
           More.emptyTarget "default" Fixtures.textContract
           [More.homeRetired] Fixtures.workflows More.homeRetired Fixtures.homePrepared
           "retired" Fixtures.home More.notFound Fixtures.newsWorkflow [JStr "Home"]
           (mkVariant (mkReference None None) (mkReference None None) (mkReference None None)));
    try reflexivity; try discriminate.
  exists [Fixtures.defaultWorkflow], []. split; [reflexivity|]. split; [reflexivity|].
  intros x [<-|[]]. reflexivity.
Defined.

(** The variant of [home] is published in the workflow [news]. *)
Lemma published_variant_gets_a_new_version_first_witness :
  exists w',
    processLanguageVariant More.homePublished "default" Fixtures.textContract
                           [Fixtures.homeLive] Fixtures.workflows
                           Fixtures.homeLive Fixtures.homePrepared = (inr tt, w')
    /\ requests w'
       = requests Fixtures.homePrepared
         ++ [ViewLanguageVariant "home" "en";
             CreateNewVersionOfLanguageVariant "home" "en";
             UpsertLanguageVariant "home" "en" [JStr "Home"];
             PublishLanguageVariant "home" "en"].
Proof.
  apply (published_variant_gets_a_new_version_first
           More.homePublished "default" Fixtures.textContract
           [Fixtures.homeLive] Fixtures.workflows Fixtures.homeLive Fixtures.homePrepared
           "live" Fixtures.home More.publishedVariant [JStr "Home"]
           (mkVariant (mkReference None None) (mkReference None None) (mkReference None None)));
    try reflexivity; try discriminate.
Defined.

End VariantFacts.

(** ** More on the workflow of a step *)

Module WorkflowFacts.

Import Spec ImportService.

(** The loop of [getWorkflowForGivenStepById] gives the first workflow
    that has the step id. *)
Lemma getWorkflowForGivenStepById_find (defaultWorkflowCodename id : string)
      (workflows : list Workflow) :
  getWorkflowForGivenStepById defaultWorkflowCodename id workflows
  = match find (hasStepId id) workflows with
    | Some workflow => inr workflow
    | None =>
        match findDefaultWorkflow defaultWorkflowCodename workflows with
        | None => inl (Error "Missing default workflow")
        | Some defaultWorkflow => inr defaultWorkflow
        end
    end.
Proof.
  unfold getWorkflowForGivenStepById.
  match goal with
  | |- match ?loop workflows with _ => _ end = _ =>
      assert (Hloop : forall l, loop l = find (hasStepId id) l)
  end.
  { induction l as [|x l IH]; [reflexivity|].
    cbn [find]. unfold hasStepId at 1. rewrite Workflows.find_existsb, <- IH.
    destruct (String.eqb (step_id (wf_archivedStep x)) id); [reflexivity|].
    destruct (String.eqb (step_id (wf_publishedStep x)) id); [reflexivity|].
    cbn [orb]. destruct (find _ (wf_steps x)); reflexivity. }
  now rewrite Hloop.
Qed.

(** X17: the workflow of a step id is the first workflow of the list that
    has the id as archived step, published step or among its steps; when
    no workflow has it, the first workflow whose codename is the default
    one but for case; when there is none either, the error
    [Missing default workflow]. *)
Theorem workflow_of_a_step_id (defaultWorkflowCodename id : string) (workflows : list Workflow) :
  (forall w, firstWith (hasStepId id) workflows w ->
             getWorkflowForGivenStepById defaultWorkflowCodename id workflows = inr w)
  /\ ((forall x, In x workflows -> hasStepId id x = false) ->
      (forall d, firstWith (isDefaultWorkflow defaultWorkflowCodename) workflows d ->
                 getWorkflowForGivenStepById defaultWorkflowCodename id workflows = inr d)
      /\ ((forall x, In x workflows -> isDefaultWorkflow defaultWorkflowCodename x = false) ->
          getWorkflowForGivenStepById defaultWorkflowCodename id workflows
          = inl (Error "Missing default workflow"))).
Proof.
  rewrite getWorkflowForGivenStepById_find. split.
  - intros w Hw. now rewrite (Workflows.find_firstWith _ workflows w Hw).
  - intros Hnone.
    assert (E : find (hasStepId id) workflows = None) by now apply Workflows.find_none_iff.
    rewrite E. unfold findDefaultWorkflow. split.
    + intros d Hd. fold (isDefaultWorkflow defaultWorkflowCodename).
      now rewrite (Workflows.find_firstWith _ workflows d Hd).
    + intros Hno.
      assert (E' : find (isDefaultWorkflow defaultWorkflowCodename) workflows = None)
        by now apply Workflows.find_none_iff.
      unfold isDefaultWorkflow in E'. now rewrite E'.
Qed.

(** The id [n2] is a step of the second workflow; no workflow has [zz]. *)
Lemma workflow_of_a_step_id_witness :
  getWorkflowForGivenStepById "DEFAULT" "n2" Fixtures.workflows = inr Fixtures.newsWorkflow
  /\ getWorkflowForGivenStepById "DEFAULT" "zz" Fixtures.workflows = inr Fixtures.defaultWorkflow
  /\ getWorkflowForGivenStepById "main" "zz" Fixtures.workflows
     = inl (Error "Missing default workflow").
Proof.
  destruct (workflow_of_a_step_id "DEFAULT" "n2" Fixtures.workflows) as (Hfirst & _).
  destruct (workflow_of_a_step_id "DEFAULT" "zz" Fixtures.workflows) as (_ & Hdefault).
  destruct (workflow_of_a_step_id "main" "zz" Fixtures.workflows) as (_ & Hmissing).
  split; [|split].
  - apply Hfirst. exists [Fixtures.defaultWorkflow], []. split; [reflexivity|].
    split; [reflexivity|]. intros x [<-|[]]. reflexivity.
  - apply Hdefault.
    + intros x [<-|[<-|[]]]; reflexivity.
    + exists [], [Fixtures.newsWorkflow]. split; [reflexivity|]. split; [reflexivity|].
      intros x [].
  - apply Hmissing; intros x [<-|[<-|[]]]; reflexivity.
Defined.

(** X18: a language variant is published (archived) when the id of its
    step is the id of the published (archived) step of some workflow of
    the list, whichever; a variant whose step has no id is neither. *)
Theorem state_of_a_variant (variant : LanguageVariant) (workflows : list Workflow) :
  (isLanguageVariantPublished variant workflows = true
   <-> exists w, In w workflows
                 /\ ref_id (lv_workflowStep variant) = Some (step_id (wf_publishedStep w)))
  /\ (isLanguageVariantArchived variant workflows = true
      <-> exists w, In w workflows
                    /\ ref_id (lv_workflowStep variant) = Some (step_id (wf_archivedStep w)))
  /\ (ref_id (lv_workflowStep variant) = None ->
      isLanguageVariantPublished variant workflows = false
      /\ isLanguageVariantArchived variant workflows = false).
Proof.
  assert (Heq : forall a b, Js.optEqb (Some a) b = true <-> b = Some a).
  { intros a [b|]; simpl; [rewrite String.eqb_eq|]; split; congruence. }
  split; [|split].
  - induction workflows as [|x l IH]; cbn [isLanguageVariantPublished isLanguageVariantArchived In].
    + split; [discriminate | intros (w & [] & _)].
    + match goal with |- context [Js.optEqb ?a ?b] => destruct (Js.optEqb a b) eqn:E end.
      * split; [|reflexivity]. intros _. exists x. split; [now left | now apply Heq].
      * rewrite IH. split.
        -- intros (w & Hw & Hc). exists w. split; [now right | exact Hc].
        -- intros (w & [<-|Hw] & Hc); [|now exists w].
           apply Heq in Hc. congruence.
  - induction workflows as [|x l IH]; cbn [isLanguageVariantPublished isLanguageVariantArchived In].
    + split; [discriminate | intros (w & [] & _)].
    + match goal with |- context [Js.optEqb ?a ?b] => destruct (Js.optEqb a b) eqn:E end.
      * split; [|reflexivity]. intros _. exists x. split; [now left | now apply Heq].
      * rewrite IH. split.
        -- intros (w & Hw & Hc). exists w. split; [now right | exact Hc].
        -- intros (w & [<-|Hw] & Hc); [|now exists w].
           apply Heq in Hc. congruence.
  - intros Hnone.
    split; induction workflows as [|x l IH];
      cbn [isLanguageVariantPublished isLanguageVariantArchived]; try reflexivity;
      rewrite Hnone; exact IH.
Qed.

Lemma state_of_a_variant_witness :
  isLanguageVariantArchived Fixtures.archivedVariant Fixtures.workflows = true
  /\ isLanguageVariantPublished
       (mkVariant (mkReference None None) (mkReference None None) (mkReference None None))
       Fixtures.workflows = false.
Proof.
  split.
  - apply (state_of_a_variant Fixtures.archivedVariant Fixtures.workflows).
    exists Fixtures.newsWorkflow. split; [right; now left | reflexivity].
  - apply (state_of_a_variant
             (mkVariant (mkReference None None) (mkReference None None) (mkReference None None))
             Fixtures.workflows).
    reflexivity.
Defined.

End WorkflowFacts.

(** ** More on the import as a whole *)

Module ImportFacts.

Import Spec ImportService Runs.

Section WholeImport.

Variable client : Client.
Variable config : ImportConfig.
Variable defaultWorkflowCodename : string.
Variable transformToImportValue :
  JsValue -> string -> string -> list ImportItemResult -> list ParsedContentItem ->
  Thrown + option JsValue.

(** X19: the request for the project information is sent before the [try]
    block.  When it fails, the import is rejected with the error as it was
    thrown, not with the report of [handleError]; the error is not logged
    and no other request is sent. *)
Theorem unreadable_project_rejects_with_the_error (sourceData : ImportSource) (w : World)
        (e : Thrown) :
  projectInformation client (requests w ++ [ProjectInformation]) = inl e ->
  importAsync client config defaultWorkflowCodename transformToImportValue sourceData w
  = (inl e, withRequests (withImportedItems w []) (requests w ++ [ProjectInformation])).
Proof.
  intros H. unfold importAsync, beforeStages, GlobalHelper.printProjectInfoToConsoleAsync.
  run. rewrite H. reflexivity.
Qed.

Lemma beforeStages_ledger (sourceData : ImportSource) (w w1 : World) (r : Thrown + ImportSource) :
  beforeStages client config sourceData w = (r, w1) -> importedItems w1 = [].
Proof.
  unfold beforeStages, GlobalHelper.printProjectInfoToConsoleAsync, removeSkippedItemsFromImport.
  run. destruct (projectInformation client _) as [e|info].
  - intros H. now inversion H.
  - destruct (match canImportAsset config with Some _ => _ | None => _ end) as [a n].
    destruct (match canImportContentItem config with Some _ => _ | None => _ end) as [i m].
    destruct (metadata sourceData) as [v|];
      [destruct (negb (Js.optEqb (Some packageVersion) v))|];
      run; destruct (Nat.ltb 0 n); destruct (Nat.ltb 0 m); run;
      intros H; now inversion H.
Qed.

Lemma asset_loop_keeps_items (assets : list ImportAsset) (w w' : World) (r : Thrown + unit) :
  forEach assets (importAsset client) w = (r, w') -> importedItems w' = importedItems w.
Proof.
  revert w. induction assets as [|a assets IH]; intros w H.
  - now inversion H.
  - cbn [forEach] in H. unfold bind in H.
    destruct (StageFacts.importAsset_outcome client a w)
      as (x & w1 & n & file & E & _ & _ & _ & _ & Hitems).
    rewrite E in H. destruct x as [e|[]].
    + inversion H. now subst.
    + rewrite (IH _ H). exact Hitems.
Qed.

Lemma growing_forEach {A : Type} (l : list A) (body : A -> M unit) :
  (forall x, growing (body x)) -> growing (forEach l body).
Proof.
  intros H. induction l as [|x l IH]; cbn [forEach]; [apply growing_ret|].
  apply growing_bind; [apply H | intros _; exact IH].
Qed.

Lemma growing_importContentItemsAsync (items : list ParsedContentItem) :
  growing (importContentItemsAsync client config defaultWorkflowCodename transformToImportValue
                                   items).
Proof.
  unfold importContentItemsAsync, getWorkflowsAsync, getCollectionsAsync.
  apply growing_bind; [apply growing_modify; intros ?; reflexivity | intros _].
  apply growing_bind; [apply growing_send | intros workflows].
  apply growing_bind; [apply growing_send | intros collections].
  apply growing_bind; [|intros _].
  { apply growing_forEach. intros i. apply growing_tryCatch.
    - apply growing_processContentItem.
    - intros e. unfold onFailedContentItem. growing. }
  apply growing_bind; [|intros _].
  { apply growing_forEach. intros i. apply growing_tryCatch.
    - apply growing_processLanguageVariant.
    - intros e. unfold onFailedLanguageVariant. growing. }
  growing.
Qed.

(** X20: when the import ends without error and the source, once
    filtered, has assets, the ledger that the import returns starts with
    the ledger of the asset stage; the entries of the content items come
    after. *)
Theorem ledger_starts_with_the_assets
        (sourceData filtered : ImportSource) (w w1 wa w' : World)
        (assetLedger ledger : list ImportItemResult) :
  beforeStages client config sourceData w = (inr filtered, w1) ->
  assets filtered <> [] ->
  importAssetsAsync client (assets filtered)
                    (withConsole w1 (console w1 ++ [Log "Importing assets"]))
  = (inr assetLedger, wa) ->
  importAsync client config defaultWorkflowCodename transformToImportValue sourceData w
  = (inr ledger, w') ->
  exists more, ledger = assetLedger ++ more.
Proof.
  intros Hbefore Hassets Hstage Hrun.
  pose proof (beforeStages_ledger _ _ _ _ Hbefore) as Hempty.
  assert (Hitems : importedItems wa = []).
  { unfold importAssetsAsync in Hstage. unfold bind at 1 in Hstage. cbn [modify] in Hstage.
    unfold bind at 1 in Hstage.
    destruct (forEach (assets filtered) (importAsset client) _) as [[e|[]] w2] eqn:E;
      [discriminate|].
    apply asset_loop_keeps_items in E. inversion Hstage. subst. rewrite E. exact Hempty. }
  unfold importAsync in Hrun. rewrite (bind_value _ _ _ _ _ Hbefore) in Hrun.
  unfold bind at 1 in Hrun. unfold tryCatch in Hrun.
  destruct (importStages client config defaultWorkflowCodename transformToImportValue filtered w1)
    as [[e|[]] w2] eqn:S.
  - unfold handleImportError, GlobalHelper.handleError in Hrun.
    cbv [bind consoleLog modify throw] in Hrun. discriminate.
  - inversion Hrun. subst ledger w'. clear Hrun.
    unfold importStages in S. destruct (assets filtered) as [|a rest] eqn:Ea; [congruence|].
    unfold bind at 1 in S. unfold bind at 1 in S. unfold consoleLog at 1 in S.
    cbn [modify] in S. unfold bind at 1 in S. rewrite Hstage in S.
    cbn [modify] in S.
    match type of S with
    | (_ ;; _) ?w0 = _ =>
        assert (H0 : importedItems w0 = assetLedger)
          by (cbn [importedItems withImportedItems]; now rewrite Hitems)
    end.
    match type of S with
    | ?m ?w0 = _ => assert (G : growing m)
    end.
    { apply growing_bind; [|intros _; apply growing_consoleLog].
      destruct (items filtered); [apply growing_consoleLog|].
      apply growing_bind; [apply growing_consoleLog | intros _].
      apply growing_bind; [apply growing_importContentItemsAsync | intros _; apply growing_ret]. }
    destruct (G _ _ _ S) as [more Hmore]. exists more. now rewrite Hmore, H0.
Qed.


(** X21: the workflows and the collections are listed before the two
    loops, outside their [try] blocks: when the listing of the workflows
    fails, the stage throws the error whatever [skipFailedItems] says, and
    no item is looked up. *)
Theorem unlisted_workflows_end_the_stage (items : list ParsedContentItem) (w : World)
        (e : Thrown) :
  listWorkflows client (requests w ++ [ListWorkflows]) = inl e ->
  importContentItemsAsync client config defaultWorkflowCodename transformToImportValue items w
  = (inl e,
     mkWorld (requests w ++ [ListWorkflows]) (console w) (importedItems w) (importedAssets w)
             [] []).
Proof.
  intros H. unfold importContentItemsAsync, getWorkflowsAsync. run. rewrite H. reflexivity.
Qed.

(** X22: for an item that the first loop prepared, whose variant is not in
    the target (404) and whose step in the source is a step of no workflow
    of the target, when the target has no default workflow: the variant is
    upserted, and then the block throws [Missing default workflow], without
    any workflow operation. *)
Theorem unknown_step_throws_after_the_upsert
        (importContentItems : list ParsedContentItem) (workflows : list Workflow)
        (item : ParsedContentItem) (w : World) (step : string) (prepared : ContentItem)
        (e : Thrown) (contracts : list JsValue) (upserted : LanguageVariant) :
  let view := ViewLanguageVariant (codename item) (language item) in
  let upsert := UpsertLanguageVariant (ci_codename prepared) (language item) contracts in
  find (fun m => String.eqb (ci_codename m) (codename item)) (preparedItems w) = Some prepared ->
  workflow_step item = Some step -> step <> "" ->
  (forall x, In x workflows -> hasStepCodename step x = false) ->
  (forall x, In x workflows -> isDefaultWorkflow defaultWorkflowCodename x = false) ->
  viewLanguageVariant client (requests w ++ [view]) = inl e -> isNotFound e = true ->
  elementContracts transformToImportValue importContentItems (elements item) (importedItems w)
  = inr contracts ->
  upsertLanguageVariant client ((requests w ++ [view]) ++ [upsert]) = inr upserted ->
  exists w',
    processLanguageVariant client defaultWorkflowCodename transformToImportValue
                           importContentItems workflows item w
    = (inl (Error "Missing default workflow"), w')
    /\ requests w' = requests w ++ [view; upsert]
    /\ upsertedLanguageVariants w' = upsertedLanguageVariants w ++ [upserted].
Proof.
  intros view upsert Hprepared Hstep Hstep' Hnone Hnodefault Hview N Hcontracts Hupsert.
  assert (Tstep : Js.truthyStr step = true) by (destruct step; [congruence | reflexivity]).
  assert (Hpublished : doesWorkflowStepCodenameRepresentPublishedStep step workflows = false).
  { destruct (doesWorkflowStepCodenameRepresentPublishedStep step workflows) eqn:E; [|reflexivity].
    apply Workflows.published_iff in E as (x & Hx & Hc).
    specialize (Hnone x Hx). unfold hasStepCodename in Hnone.
    rewrite Hc, String.eqb_refl, orb_true_r in Hnone. discriminate. }
  assert (Harchived : doesWorkflowStepCodenameRepresentArchivedStep step workflows = false).
  { destruct (doesWorkflowStepCodenameRepresentArchivedStep step workflows) eqn:E; [|reflexivity].
    apply Workflows.archived_iff in E as (x & Hx & Hc).
    specialize (Hnone x Hx). unfold hasStepCodename in Hnone.
    rewrite Hc, String.eqb_refl in Hnone. discriminate. }
  assert (Hwf : getWorkflowForGivenStepByCodename defaultWorkflowCodename step workflows
                = inl (Error "Missing default workflow")).
  { rewrite Workflows.getWorkflowForGivenStepByCodename_find.
    assert (E : find (hasStepCodename step) workflows = None)
      by now apply Workflows.find_none_iff.
    assert (E' : find (isDefaultWorkflow defaultWorkflowCodename) workflows = None)
      by now apply Workflows.find_none_iff.
    rewrite E. unfold findDefaultWorkflow. unfold isDefaultWorkflow in E'. now rewrite E'. }
  assert (Hprepare :
            prepareLanguageVariantForImportAsync client defaultWorkflowCodename item workflows w
            = (inr tt, withRequests w (requests w ++ [view]))).
  { unfold prepareLanguageVariantForImportAsync. run. fold view. rewrite Hview, N. reflexivity. }
  eexists. split; [|split].
  - unfold processLanguageVariant, hasWorkflowStep. rewrite Hstep. cbn [Js.truthy]. rewrite Tstep.
    cbn [negb]. unfold get at 1. unfold bind at 1. rewrite Hprepared.
    rewrite (bind_value _ _ _ _ _ Hprepare).
    run. rewrite Hcontracts. run. fold upsert. rewrite Hupsert. run.
    rewrite Hpublished, Harchived, Hwf. reflexivity.
  - cbn [requests]. now rewrite <- !app_assoc.
  - reflexivity.
Qed.

End WholeImport.

(** The project information cannot be read: the caller gets the error of
    the management API itself. *)
Lemma unreadable_project_rejects_with_the_error_witness :
  runImport More.unreachable (Fixtures.config false) "default" Fixtures.noContract
            Fixtures.twoAssets
  = inl Fixtures.serverError.
Proof.
  unfold runImport.
  rewrite (unreadable_project_rejects_with_the_error
             More.unreachable (Fixtures.config false) "default" Fixtures.noContract
             Fixtures.twoAssets newWorld Fixtures.serverError eq_refl).
  reflexivity.
Defined.

Lemma ledger_starts_with_the_assets_witness :
  exists more,
    [existingAssetEntry Fixtures.picture (mkAsset "target-asset" None);
     existingAssetEntry Fixtures.picture (mkAsset "target-asset" None)]
    = [existingAssetEntry Fixtures.picture (mkAsset "target-asset" None);
       existingAssetEntry Fixtures.picture (mkAsset "target-asset" None)] ++ more.
Proof.
  eapply (ledger_starts_with_the_assets
            Fixtures.everyAssetExists (Fixtures.config false) "default" Fixtures.noContract
            Fixtures.onlyPicture Fixtures.onlyPicture newWorld).
  - reflexivity.
  - discriminate.
  - reflexivity.
  - reflexivity.
Defined.

Lemma unlisted_workflows_end_the_stage_witness :
  fst (importContentItemsAsync Fixtures.everyAssetExists (Fixtures.config true) "default"
                               Fixtures.noContract [Fixtures.homeLive] newWorld)
  = inl (Error "no answer").
Proof.
  rewrite (unlisted_workflows_end_the_stage
             Fixtures.everyAssetExists (Fixtures.config true) "default" Fixtures.noContract
             [Fixtures.homeLive] newWorld (Error "no answer") eq_refl).
  reflexivity.
Defined.

(** The step [unknown] is a step of no workflow, and no workflow is called
    [main]. *)
Lemma unknown_step_throws_after_the_upsert_witness :
  exists w',
    processLanguageVariant More.emptyTarget "main" Fixtures.textContract
                           [More.homeUnknown] Fixtures.workflows
                           More.homeUnknown Fixtures.homePrepared
    = (inl (Error "Missing default workflow"), w')
    /\ requests w'
       = requests Fixtures.homePrepared
         ++ [ViewLanguageVariant "home" "en"; UpsertLanguageVariant "home" "en" [JStr "Home"]]
    /\ upsertedLanguageVariants w'
       = upsertedLanguageVariants Fixtures.homePrepared
         ++ [mkVariant (mkReference None None) (mkReference None None) (mkReference None None)].
Proof.
  apply (unknown_step_throws_after_the_upsert
           More.emptyTarget "main" Fixtures.textContract
           [More.homeUnknown] Fixtures.workflows More.homeUnknown Fixtures.homePrepared
           "unknown" Fixtures.home More.notFound [JStr "Home"]
           (mkVariant (mkReference None None) (mkReference None None) (mkReference None None)));
    try reflexivity; try discriminate.
  - intros x [<-|[<-|[]]]; reflexivity.
  - intros x [<-|[<-|[]]]; reflexivity.
Defined.

End ImportFacts.
